(** * The milter session engine of github.com/phalaaxx/milter

    A shallow embedding of [session.go], [message.go] and [server.go]:
    the frame codec ([ReadPacket], [WritePacket]), the command dispatcher
    ([Process]) and the session loop ([HandleMilterCommands]), followed by
    the properties of the engine that the specification states.

    Go values are represented as follows.
    - [uint32], [uint16], [int]: [Z], with the wrap-around of a conversion
      written out ([uint32]).
    - [[]byte]: [list byte]; [string]: [string]; [string(b)] is
      [string_of_list_byte].
    - [map[string]string] and [textproto.MIMEHeader]: [option (gmap ..)],
      where [None] is the nil map.
    - a method of [*milterSession]: a computation of the monad [Go], which
      threads the session and the process log and ends in a normal return,
      in [os.Exit] or in a run-time panic. *)

From Stdlib Require Import ZArith Strings.Byte String Ascii List Lia Bool.
From stdpp Require Import base gmap list strings.
Import ListNotations.

(** ** Machine integers and [encoding/binary] *)

Module Wire.

Definition uint32 (z : Z) : Z := (z mod 2 ^ 32)%Z.

Definition is_uint32 (z : Z) : Prop := (0 <= z < 2 ^ 32)%Z.

Definition Z_of_byte (b : byte) : Z := Z.of_N (Byte.to_N b).

(** The conversion [byte(v)]: the low eight bits of [v]. *)
Definition byte_of_Z (z : Z) : byte :=
  match Byte.of_N (Z.to_N (Z.land z 255)) with
  | Some b => b
  | None => x00
  end.

(** [binary.BigEndian.PutUint32] and [binary.Write] of a [uint32]. *)
Definition PutUint32 (v : Z) : list byte :=
  [ byte_of_Z (Z.shiftr v 24); byte_of_Z (Z.shiftr v 16);
    byte_of_Z (Z.shiftr v 8); byte_of_Z v ].

(** [binary.BigEndian.Uint32] on a slice of at least four bytes. *)
Definition Uint32 (b : list byte) : Z :=
  match b with
  | b0 :: b1 :: b2 :: b3 :: _ =>
      Z.lor (Z.lor (Z.lor (Z_of_byte b3) (Z.shiftl (Z_of_byte b2) 8))
                   (Z.shiftl (Z_of_byte b1) 16))
            (Z.shiftl (Z_of_byte b0) 24)
  | _ => 0%Z
  end.

(** [binary.BigEndian.Uint16] on a slice of at least two bytes. *)
Definition Uint16 (b : list byte) : Z :=
  match b with
  | b0 :: b1 :: _ => Z.lor (Z_of_byte b1) (Z.shiftl (Z_of_byte b0) 8)
  | _ => 0%Z
  end.

End Wire.

(** ** The Go run time: errors, panics, the process log *)

(** The error values the session meets: the two of package [io], the
    package's own [errCloseSession] (declared outside the three files; the
    loop only compares with it), and any other error by its text. *)
Inductive error : Type :=
| io_EOF
| io_ErrUnexpectedEOF
| errCloseSession
| OtherError (text : string).

Global Instance error_eq_dec : EqDecision error.
Proof. solve_decision. Defined.

Global Instance byte_eq_decision : EqDecision byte := Byte.byte_eq_dec.

Inductive panic : Type :=
| IndexOutOfRange (index len : nat)
| SliceBoundsOutOfRange (low high : nat)
| NilMapAssignment
| NilDereference.

Inductive log_arg : Type :=
| ArgError (err : error)
| ArgByte (b : byte).

(** One line written by the [log] package: by [log.Fatal(tag, err)] or by
    [log.Printf(format, arg)]. *)
Inductive log_line : Type :=
| FatalLine (tag : string) (err : error)
| PrintfLine (format : string) (arg : log_arg).

(** How a call ends: it returns, the process exits ([log.Fatal] calls
    [os.Exit(1)]), or it panics. Nothing in the package recovers a panic,
    so a panic ends the process too. *)
Inductive outcome (A : Type) : Type :=
| Ret (a : A)
| Exit (status : Z)
| Panic (p : panic).

Arguments Ret {A} a.
Arguments Exit {A} status.
Arguments Panic {A} p.

(** ** message.go *)

Record Message : Type := mkMessage { Code : byte; Data : list byte }.

Definition acceptMilter : byte := "a"%byte.
Definition continueMilter : byte := "c"%byte.
Definition discardMilter : byte := "d"%byte.
Definition rejectMilter : byte := "r"%byte.
Definition tempFailMilter : byte := "t"%byte.

(** ** Parts of the package that are not in the three files *)

(** Modelled from the spec: the [Response] values of response.go. §3 and
    §4.5: a response is a response code plus an optional payload; it
    exposes its encoded frame and whether the session keeps reading, which
    is true except for Accept, Reject, Discard and TempFail. *)
Record Response : Type := mkResponse { resp_code : byte; resp_data : list byte }.

(** Modelled from the spec: [NewResponse] of response.go, the response
    with the given code and payload (§4.5). *)
Definition NewResponse (code : byte) (data : list byte) : Response :=
  mkResponse code data.

(** Modelled from the spec: the fixed responses Continue and TempFail of
    response.go (§4.5), with the codes of message.go and no payload. *)
Definition RespContinue : Response := mkResponse continueMilter [].
Definition RespTempFail : Response := mkResponse tempFailMilter [].

(** Modelled from the spec: the method [Response()] of a response, its
    encoded frame (§4.5). *)
Definition Response_Message (r : Response) : Message :=
  mkMessage (resp_code r) (resp_data r).

(** Modelled from the spec: the method [Continue()] of a response, false
    exactly for Accept, Discard, Reject and TempFail (§4.5). *)
Definition Continue (r : Response) : bool :=
  negb (existsb (Byte.eqb (resp_code r))
          [acceptMilter; discardMilter; rejectMilter; tempFailMilter]).

(** Modelled from the spec: the constant [null] of the string decoder, the
    protocol terminator (§4.2, §4.3). *)
Definition null : string := String "000"%char EmptyString.

(** Modelled from the spec: the scan of [readCString], up to the first
    null byte (§4.2). With no null byte it stops at the end of the input. *)
Fixpoint readCBytes (data : list byte) : list byte :=
  match data with
  | [] => []
  | b :: rest => if Byte.eqb b x00 then [] else b :: readCBytes rest
  end.

(** Modelled from the spec: [readCString] of the string decoder. §4.2: it
    scans to the first null byte and returns the substring before it. *)
Definition readCString (data : list byte) : string :=
  string_of_list_byte (readCBytes data).

(** Modelled from the spec: the repetition of [decodeCStrings] (§4.2).
    Every application of [readCString] consumes the string and its
    terminator, so [fuel = len(data)] applications exhaust the input. *)
Fixpoint decodeCStrings_from (fuel : nat) (data : list byte) : list string :=
  match fuel, data with
  | S fuel', _ :: _ =>
      let s := readCString data in
      s :: decodeCStrings_from fuel' (drop (String.length s + 1) data)
  | _, _ => []
  end.

(** Modelled from the spec: [decodeCStrings] of the string decoder. §4.2:
    it applies [readCString] repeatedly until the input is exhausted. *)
Definition decodeCStrings (data : list byte) : list string :=
  decodeCStrings_from (length data) data.

(** Modelled from the spec: the [Modifier] of modifier.go. §4.4: it is
    made fresh for every callback and bound to one session, whose
    negotiated actions gate its operations; it stages data and does not
    write to the transport. It carries what a callback can see of the
    session. *)
Record Modifier : Type := mkModifier {
  mod_actions : Z;
  mod_macros : option (gmap string string);
  mod_headers : option (gmap string (list string))
}.

(** What a callback, and [Process], return: [(Response, error)], where
    either may be nil. *)
Definition Result : Type := (option Response * option error)%type.

(** Modelled from the spec: the interface [Milter], the capability set of
    §4.3, with the arguments [Process] passes at each call. [M] is the
    state of the filter behind the interface value, [IP] is [net.IP]. A
    callback cannot reach the unexported fields of the session. *)
Record Milter (M IP : Type) : Type := mkMilter {
  Connect : M -> string -> string -> Z -> IP -> Modifier -> M * Result;
  Helo : M -> string -> Modifier -> M * Result;
  MailFrom : M -> string -> Modifier -> M * Result;
  RcptTo : M -> string -> Modifier -> M * Result;
  Header : M -> string -> string -> Modifier -> M * Result;
  Headers : M -> option (gmap string (list string)) -> Modifier -> M * Result;
  BodyChunk : M -> list byte -> Modifier -> M * Result;
  Body : M -> Modifier -> M * Result
}.

Arguments Connect {M IP} _ _ _ _ _ _ _.
Arguments Helo {M IP} _ _ _ _.
Arguments MailFrom {M IP} _ _ _ _.
Arguments RcptTo {M IP} _ _ _ _.
Arguments Header {M IP} _ _ _ _ _.
Arguments Headers {M IP} _ _ _ _.
Arguments BodyChunk {M IP} _ _ _ _.
Arguments Body {M IP} _ _ _.

(** ** The Go library functions the session uses *)

Module strings.

(** [strings.TrimSuffix]. *)
Definition TrimSuffix (s suffix : string) : string :=
  let n := String.length s in
  let k := String.length suffix in
  if (k <=? n)%nat && String.eqb (String.substring (n - k) k s) suffix
  then String.substring 0 (n - k) s
  else s.

Fixpoint in_cutset (c : ascii) (cutset : string) : bool :=
  match cutset with
  | EmptyString => false
  | String d rest => Ascii.eqb c d || in_cutset c rest
  end.

Fixpoint TrimLeft (s cutset : string) : string :=
  match s with
  | EmptyString => EmptyString
  | String c rest => if in_cutset c cutset then TrimLeft rest cutset else s
  end.

Fixpoint TrimRight (s cutset : string) : string :=
  match s with
  | EmptyString => EmptyString
  | String c rest =>
      match TrimRight rest cutset with
      | EmptyString => if in_cutset c cutset then EmptyString else String c EmptyString
      | t => String c t
      end
  end.

(** [strings.Trim] with a cutset of ASCII characters. *)
Definition Trim (s cutset : string) : string :=
  TrimRight (TrimLeft s cutset) cutset.

End strings.

Module textproto.

Definition is_lower (c : ascii) : bool :=
  let n := nat_of_ascii c in (97 <=? n)%nat && (n <=? 122)%nat.

Definition is_upper (c : ascii) : bool :=
  let n := nat_of_ascii c in (65 <=? n)%nat && (n <=? 90)%nat.

Definition is_digit (c : ascii) : bool :=
  let n := nat_of_ascii c in (48 <=? n)%nat && (n <=? 57)%nat.

(** [validHeaderFieldByte]: the token characters of RFC 7230. *)
Definition validHeaderFieldByte (c : ascii) : bool :=
  is_lower c || is_upper c || is_digit c
  || strings.in_cutset c "!#$%&'*+-.^_`|~".

Definition to_upper (c : ascii) : ascii :=
  if is_lower c then ascii_of_nat (nat_of_ascii c - 32) else c.

Definition to_lower (c : ascii) : ascii :=
  if is_upper c then ascii_of_nat (nat_of_ascii c + 32) else c.

(** The rewriting loop of [canonicalMIMEHeaderKey]: upper case at the
    start and after each dash, lower case elsewhere. *)
Fixpoint canonical_letters (upper : bool) (s : string) : string :=
  match s with
  | EmptyString => EmptyString
  | String c rest =>
      let c' := if upper then to_upper c else to_lower c in
      String c' (canonical_letters (Ascii.eqb c' "-"%char) rest)
  end.

Fixpoint all_valid (s : string) : bool :=
  match s with
  | EmptyString => true
  | String c rest => validHeaderFieldByte c && all_valid rest
  end.

(** [textproto.CanonicalMIMEHeaderKey]: a key that has a byte outside the
    token characters is returned unchanged, any other key is put in the
    canonical letter case. *)
Definition CanonicalMIMEHeaderKey (s : string) : string :=
  if all_valid s then canonical_letters true s else s.

(** [MIMEHeader.Add] on a map that is not nil:
    [key = CanonicalMIMEHeaderKey(key); h[key] = append(h[key], value)]. *)
Definition Add (h : gmap string (list string)) (key value : string)
  : gmap string (list string) :=
  let key := CanonicalMIMEHeaderKey key in
  <[ key := default [] (h !! key) ++ [value] ]> h.

End textproto.

(** ** The transport

    [sock] is an [io.ReadWriteCloser]. The peer's bytes still to arrive are
    [rd]; once they are used up a read reports [rd_end] ([io_EOF] when the
    peer closed the stream cleanly). The bytes sent to the peer are [wr]; a
    transport with [wr_err] set refuses every write and sends nothing.

    This covers the streams that end and the transports that take every
    write whole or none: a read that waits for an idle peer, an endless
    stream and a write that fails part-way are outside it. *)
Record Sock : Type := mkSock {
  rd : list byte;
  rd_end : error;
  wr : list byte;
  wr_err : option error;
  closed : bool
}.

Module io.

(** The error of a read that got the bytes [got] before the stream ended
    with [e]. *)
Definition short_read_error (got : list byte) (e : error) : error :=
  match got, e with
  | _ :: _, io_EOF => io_ErrUnexpectedEOF
  | _, e => e
  end.

(** [io.ReadFull(sock, buf)] with [len(buf) = n]: the bytes read and the
    error. A read of no bytes succeeds at once; a stream that ends on a
    clean EOF inside the buffer gives [io_ErrUnexpectedEOF]. *)
Definition ReadFull (n : nat) (s : Sock) : Sock * (list byte * option error) :=
  if (n <=? length (rd s))%nat then
    (mkSock (drop n (rd s)) (rd_end s) (wr s) (wr_err s) (closed s),
     (take n (rd s), None))
  else
    (mkSock [] (rd_end s) (wr s) (wr_err s) (closed s),
     (rd s, Some (short_read_error (rd s) (rd_end s)))).

(** [sock.Write(p)]. *)
Definition Write (p : list byte) (s : Sock) : Sock * option error :=
  match wr_err s with
  | Some e => (s, Some e)
  | None => (mkSock (rd s) (rd_end s) (wr s ++ p) (wr_err s) (closed s), None)
  end.

(** [sock.Close()]; its error is dropped by the caller. *)
Definition Close (s : Sock) : Sock :=
  mkSock (rd s) (rd_end s) (wr s) (wr_err s) true.

End io.

(** ** session.go: the session *)

Definition OptAddHeader : Z := 0x01.
Definition OptChangeBody : Z := 0x02.
Definition OptAddRcpt : Z := 0x04.
Definition OptRemoveRcpt : Z := 0x08.
Definition OptChangeHeader : Z := 0x10.
Definition OptQuarantine : Z := 0x20.

Definition OptNoConnect : Z := 0x01.
Definition OptNoHelo : Z := 0x02.
Definition OptNoMailFrom : Z := 0x04.
Definition OptNoRcptTo : Z := 0x08.
Definition OptNoBody : Z := 0x10.
Definition OptNoHeaders : Z := 0x20.
Definition OptNoEOH : Z := 0x40.

(** [milterSession]; [milter] holds the state of the filter, whose methods
    are a [Milter M IP]. *)
Record milterSession (M : Type) : Type := mkSession {
  actions : Z;
  protocol : Z;
  sock : Sock;
  headers : option (gmap string (list string));
  macros : option (gmap string string);
  milter : M
}.

Arguments mkSession {M} _ _ _ _ _ _.
Arguments actions {M} _.
Arguments protocol {M} _.
Arguments sock {M} _.
Arguments headers {M} _.
Arguments macros {M} _.
Arguments milter {M} _.

(** The session together with the lines the process has logged. *)
Record state (M : Type) : Type := mkState {
  sess : milterSession M;
  logged : list log_line
}.

Arguments mkState {M} _ _.
Arguments sess {M} _.
Arguments logged {M} _.

(** The session literal of [RunServer] (server.go) for an accepted
    connection [client] and the values [init()] returned. *)
Definition new_session {M : Type} (m : M) (acts prot : Z) (client : Sock)
  : milterSession M :=
  mkSession acts prot client None None m.

(** ** The monad of session methods *)

Definition Go (M A : Type) : Type := state M -> state M * outcome A.

Definition ret {M A : Type} (a : A) : Go M A := fun st => (st, Ret a).

Definition bind {M A B : Type} (m : Go M A) (k : A -> Go M B) : Go M B :=
  fun st =>
    match m st with
    | (st', Ret a) => k a st'
    | (st', Exit n) => (st', Exit n)
    | (st', Panic p) => (st', Panic p)
    end.

Declare Scope go_scope.
Delimit Scope go_scope with go.
Notation "x <- m ;; k" := (bind m (fun x => k))
  (at level 100, m at next level, right associativity) : go_scope.
Notation "m ;; k" := (bind m (fun _ => k))
  (at level 100, right associativity) : go_scope.
Local Open Scope go_scope.

Definition throw {M A : Type} (p : panic) : Go M A := fun st => (st, Panic p).

Definition get_session {M : Type} : Go M (milterSession M) :=
  fun st => (st, Ret (sess st)).

Definition put_session {M : Type} (c : milterSession M) : Go M unit :=
  fun st => (mkState c (logged st), Ret tt).

(** [log.Printf(format, arg)]. *)
Definition log_Printf {M : Type} (format : string) (arg : log_arg) : Go M unit :=
  fun st => (mkState (sess st) (logged st ++ [PrintfLine format arg]), Ret tt).

(** [log.Fatal(tag, err)]: the line is written and the process exits with
    status 1; the statements after the call are not reached. *)
Definition log_Fatal {M : Type} (tag : string) (err : error) : Go M unit :=
  fun st => (mkState (sess st) (logged st ++ [FatalLine tag err]), Exit 1).

(** [a[i]] *)
Definition index {M : Type} (a : list byte) (i : nat) : Go M byte :=
  match a !! i with
  | Some b => ret b
  | None => throw (IndexOutOfRange i (length a))
  end.

(** [a[low:]] *)
Definition slice_from {M : Type} (a : list byte) (low : nat) : Go M (list byte) :=
  if (low <=? length a)%nat then ret (drop low a)
  else throw (SliceBoundsOutOfRange low (length a)).

Definition set_sock {M : Type} (s : Sock) : Go M unit :=
  c <- get_session ;;
  put_session (mkSession (actions c) (protocol c) s (headers c) (macros c) (milter c)).

Definition set_headers {M : Type} (h : option (gmap string (list string))) : Go M unit :=
  c <- get_session ;;
  put_session (mkSession (actions c) (protocol c) (sock c) h (macros c) (milter c)).

Definition set_macros {M : Type} (m : option (gmap string string)) : Go M unit :=
  c <- get_session ;;
  put_session (mkSession (actions c) (protocol c) (sock c) (headers c) m (milter c)).

Definition set_milter {M : Type} (m : M) : Go M unit :=
  c <- get_session ;;
  put_session (mkSession (actions c) (protocol c) (sock c) (headers c) (macros c) m).

(** [io.ReadFull(c.sock, buf)] *)
Definition sock_ReadFull {M : Type} (n : nat) : Go M (list byte * option error) :=
  c <- get_session ;;
  let '(s, r) := io.ReadFull n (sock c) in
  set_sock s ;; ret r.

(** A write that reaches [c.sock]. *)
Definition sock_Write {M : Type} (p : list byte) : Go M (option error) :=
  c <- get_session ;;
  let '(s, r) := io.Write p (sock c) in
  set_sock s ;; ret r.

(** [bufio.NewWriter(c.sock)]: a writer is the bytes it holds back, at most
    [size] of them. No call below is made after an earlier one failed, so
    the writer's sticky error is left out. *)
Module bufio.

Definition size : nat := 4096.

Definition NewWriter : list byte := [].

(** [b.Flush()] *)
Definition Flush {M : Type} (buffered : list byte) : Go M (option error) :=
  match buffered with
  | [] => ret None
  | _ => sock_Write buffered
  end.

(** [b.Write(p)]: the bytes then held back, and the error. What fits is
    copied into the buffer. Otherwise a write into an empty buffer goes
    straight to the socket, and a write into a buffer in use fills it up,
    flushes it and goes on with the rest of [p] in the same way. *)
Definition Write {M : Type} (buffered p : list byte) : Go M (list byte * option error) :=
  if (length p <=? size - length buffered)%nat then ret (buffered ++ p, None)
  else if (length buffered =? 0)%nat then
    w <- sock_Write p ;;
    ret ([], w)
  else
    let n := (size - length buffered)%nat in
    w <- sock_Write (buffered ++ take n p) ;;
    match w with
    | Some err => ret ([], Some err)
    | None =>
        let p' := drop n p in
        if (length p' <=? size)%nat then ret (p', None)
        else
          w' <- sock_Write p' ;;
          ret ([], w')
    end.

(** [b.WriteByte(c)] *)
Definition WriteByte {M : Type} (buffered : list byte) (c : byte)
  : Go M (list byte * option error) :=
  if (size - length buffered =? 0)%nat then
    w <- Flush buffered ;;
    match w with
    | Some err => ret (buffered, Some err)
    | None => ret ([c], None)
    end
  else ret (buffered ++ [c], None).

End bufio.

(** [c.macros[k] = v] *)
Definition macros_store {M : Type} (k v : string) : Go M unit :=
  c <- get_session ;;
  match macros c with
  | Some m => set_macros (Some (<[ k := v ]> m))
  | None => throw NilMapAssignment
  end.

(** [c.headers.Add(k, v)] *)
Definition headers_Add {M : Type} (k v : string) : Go M unit :=
  c <- get_session ;;
  match headers c with
  | Some h => set_headers (Some (textproto.Add h k v))
  | None => throw NilMapAssignment
  end.

(** Modelled from the spec: [newModifier] of modifier.go (see [Modifier]). *)
Definition newModifier {M : Type} (c : milterSession M) : Modifier :=
  mkModifier (actions c) (macros c) (headers c).

(** A call [c.milter.F(args.., newModifier(c))] of a method of the filter:
    the filter's state advances and its result is returned as it is. *)
Definition call_milter {M : Type} (f : M -> Modifier -> M * Result) : Go M Result :=
  c <- get_session ;;
  let '(m, r) := f (milter c) (newModifier c) in
  set_milter m ;; ret r.

(** ** session.go: the methods of the session *)

Section Session.

Context {M IP : Type}.

(** [net.ParseIP] *)
Variable ParseIP : string -> IP.

(** The methods of the filter [c.milter]. *)
Variable F : Milter M IP.

(** [binary.Read(c.sock, binary.BigEndian, &length)] for a [uint32]. *)
Definition binary_Read_uint32 : Go M (Z * option error) :=
  r <- sock_ReadFull 4 ;;
  match r with
  | (_, Some err) => ret (0%Z, Some err)
  | (bs, None) => ret (Wire.Uint32 bs, None)
  end.

Definition ReadPacket : Go M (option Message * option error) :=
  (* read packet length *)
  r <- binary_Read_uint32 ;;
  match r with
  | (_, Some err) =>
      log_Fatal "dempo2" err ;;
      ret (None, Some err)
  | (length, None) =>
      (* read packet data *)
      d <- sock_ReadFull (Z.to_nat length) ;;
      match d with
      | (_, Some err) =>
          log_Fatal "dempo" err ;;
          ret (None, Some err)
      | (data, None) =>
          (* prepare response data; on an empty [data] both [data[0]] and
             [data[1:]] are out of range, and which of the two panics is
             raised first is left to the compiler *)
          code <- index data 0 ;;
          rest <- slice_from data 1 ;;
          ret (Some (mkMessage code rest), None)
      end
  end.

Definition WritePacket (msg : Message) : Go M (option error) :=
  let buffer := bufio.NewWriter in
  (* calculate and write response length *)
  let length := Wire.uint32 (Z.of_nat (List.length (Data msg)) + 1) in
  w <- bufio.Write buffer (Wire.PutUint32 length) ;;
  match w with
  | (_, Some err) => ret (Some err)
  | (buffer, None) =>
      (* write response code *)
      w <- bufio.WriteByte buffer (Code msg) ;;
      match w with
      | (_, Some err) =>
          log_Fatal "dempo3" err ;;
          ret (Some err)
      | (buffer, None) =>
          (* write response data *)
          w <- bufio.Write buffer (Data msg) ;;
          match w with
          | (_, Some err) =>
              log_Fatal "dempo4" err ;;
              ret (Some err)
          | (buffer, None) =>
              (* flush data to network socket stream *)
              w <- bufio.Flush buffer ;;
              match w with
              | Some err =>
                  log_Fatal "dempo5" err ;;
                  ret (Some err)
              | None => ret None
              end
          end
      end
  end.

(** The map literal [family] of case 'C'; a byte that is not a key gives
    the zero value of [string]. *)
Definition family (protocolFamily : byte) : string :=
  match protocolFamily with
  | "U"%byte => "unknown"
  | "L"%byte => "unix"
  | "4"%byte => "tcp4"
  | "6"%byte => "tcp6"
  | _ => ""
  end.

(** The loop [for i := 0; i < len(data); i += 2] of case 'D', from index
    [i] on; [rest] is [data[i:]] and [len] is [len(data)]. *)
Fixpoint store_macros (i len : nat) (rest : list string) : Go M unit :=
  match rest with
  | [] => ret tt
  | [_] => throw (IndexOutOfRange (i + 1) len)
  | k :: v :: rest' => macros_store k v ;; store_macros (i + 2) len rest'
  end.

Definition Process (msg : Message) : Go M Result :=
  match Code msg with
  | "A"%byte =>
      (* abort current message and start over *)
      set_headers None ;;
      set_macros None ;;
      (* do not send response *)
      ret (None, None)
  | "B"%byte =>
      (* body chunk *)
      call_milter (fun m => BodyChunk F m (Data msg))
  | "C"%byte =>
      (* new connection, get hostname *)
      let Hostname := readCString (Data msg) in
      data1 <- slice_from (Data msg) (String.length Hostname + 1) ;;
      (* get protocol family *)
      protocolFamily <- index data1 0 ;;
      data2 <- slice_from data1 1 ;;
      (* get address, run handler and return *)
      let connect (Port : Z) (data3 : list byte) :=
        let Address := readCString data3 in
        call_milter (fun m =>
          Connect F m Hostname (family protocolFamily) Port (ParseIP Address)) in
      (* get port *)
      if Byte.eqb protocolFamily "4" || Byte.eqb protocolFamily "6" then
        if (List.length data2 <? 2)%nat then ret (Some RespTempFail, None)
        else
          data3 <- slice_from data2 2 ;;
          connect (Wire.Uint16 data2) data3
      else connect 0%Z data2
  | "D"%byte =>
      (* define macros *)
      set_macros (Some ∅) ;;
      (* convert data to Go strings *)
      tail <- slice_from (Data msg) 1 ;;
      let data := decodeCStrings tail in
      (* store data in a map *)
      (if (List.length data =? 0)%nat then ret tt
       else store_macros 0 (List.length data) data) ;;
      (* do not send response *)
      ret (None, None)
  | "E"%byte =>
      (* call and return milter handler *)
      call_milter (Body F)
  | "H"%byte =>
      (* helo command *)
      let name := strings.TrimSuffix (string_of_list_byte (Data msg)) null in
      call_milter (fun m => Helo F m name)
  | "L"%byte =>
      (* make sure headers is initialized *)
      c <- get_session ;;
      (if headers c is None then set_headers (Some ∅) else ret tt) ;;
      (* add new header to headers map *)
      match decodeCStrings (Data msg) with
      | [name; value] =>
          headers_Add name value ;;
          (* call and return milter handler *)
          call_milter (fun m => Header F m name value)
      | _ => ret (Some RespContinue, None)
      end
  | "M"%byte =>
      (* envelope from address *)
      let envfrom := readCString (Data msg) in
      call_milter (fun m => MailFrom F m (strings.Trim envfrom "<>"))
  | "N"%byte =>
      (* end of headers *)
      c <- get_session ;;
      call_milter (fun m => Headers F m (headers c))
  | "O"%byte =>
      (* ignore request and prepare response buffer *)
      c <- get_session ;;
      let buffer :=
        Wire.PutUint32 2 ++ Wire.PutUint32 (actions c) ++ Wire.PutUint32 (protocol c) in
      (* build and send packet *)
      ret (Some (NewResponse "O" buffer), None)
  | "Q"%byte =>
      (* client requested session close *)
      ret (None, Some errCloseSession)
  | "R"%byte =>
      (* envelope to address *)
      let envto := readCString (Data msg) in
      call_milter (fun m => RcptTo F m (strings.Trim envto "<>"))
  | "T"%byte =>
      (* data, ignore; by default continue with next milter message *)
      ret (Some RespContinue, None)
  | code =>
      (* print error and close session *)
      log_Printf "Unrecognized command code: %c" (ArgByte code) ;;
      ret (None, Some errCloseSession)
  end.

(** One turn of the [for] loop of [HandleMilterCommands]: [false] stands
    for a [return], [true] for reaching the end of the body. *)
Definition handle_one : Go M bool :=
  (* ReadPacket *)
  r <- ReadPacket ;;
  match r with
  | (_, Some err) =>
      (if decide (err = io_EOF) then ret tt
       else log_Printf "Error reading milter command: %v" (ArgError err)) ;;
      ret false
  | (None, None) => throw NilDereference
  | (Some msg, None) =>
      (* process command *)
      p <- Process msg ;;
      match p with
      | (_, Some err) =>
          (if decide (err = errCloseSession) then ret tt
           else log_Printf "Error performing milter command: %v" (ArgError err)) ;;
          ret false
      | (None, None) => ret true
      | (Some resp, None) =>
          (* send back response message *)
          w <- WritePacket (Response_Message resp) ;;
          match w with
          | Some err =>
              log_Printf "Error writing packet: %v" (ArgError err) ;;
              ret false
          | None => ret (Continue resp)
          end
      end
  end.

(** The [for] loop, unrolled at most [fuel] times; [None] when the fuel
    runs out before the loop ends. *)
Fixpoint handle_loop (fuel : nat) (st : state M) : option (state M * outcome unit) :=
  match fuel with
  | O => None
  | S fuel' =>
      match handle_one st with
      | (st', Ret true) => handle_loop fuel' st'
      | (st', Ret false) => Some (st', Ret tt)
      | (st', Exit n) => Some (st', Exit n)
      | (st', Panic p) => Some (st', Panic p)
      end
  end.

(** [defer c.sock.Close()]: it runs when the function returns and when it
    panics, and not when the process exits. *)
Definition deferred_Close (r : state M * outcome unit) : state M * outcome unit :=
  match r with
  | (st, Exit n) => (st, Exit n)
  | (st, o) =>
      let c := sess st in
      (mkState (mkSession (actions c) (protocol c) (io.Close (sock c))
                          (headers c) (macros c) (milter c))
               (logged st), o)
  end.

(** Every turn that continues has read a length prefix, so the bytes still
    to arrive bound the number of turns. *)
Definition HandleMilterCommands (st : state M) : option (state M * outcome unit) :=
  deferred_Close <$> handle_loop (S (List.length (rd (sock (sess st))))) st.

End Session.

Arguments ReadPacket {M}.
Arguments WritePacket {M} msg.
Arguments binary_Read_uint32 {M}.
Arguments store_macros {M} i len rest.

(** ** Vocabulary of the specification *)

(** The command codes [Process] has a case for. *)
Definition recognized (code : byte) : bool :=
  existsb (Byte.eqb code)
    [ "A"; "B"; "C"; "D"; "E"; "H"; "L"; "M"; "N"; "O"; "Q"; "R"; "T" ]%byte.

(** The wire form of a frame as §6 gives it, in the specification's words:
    a four-byte big-endian length equal to [1 + len(data)], the command
    byte, the data. *)
Definition wire_form (f : Message) : list byte :=
  Wire.PutUint32 (1 + Z.of_nat (length (Data f))) ++ [Code f] ++ Data f.

(** The session [c] on the transport [s]. *)
Definition on_sock {M : Type} (c : milterSession M) (s : Sock) : milterSession M :=
  mkSession (actions c) (protocol c) s (headers c) (macros c) (milter c).

(** The state [st] when the bytes still to arrive are [bytes]. *)
Definition unread {M : Type} (st : state M) (bytes : list byte) : state M :=
  let s := sock (sess st) in
  mkState (on_sock (sess st) (mkSock bytes (rd_end s) (wr s) (wr_err s) (closed s)))
          (logged st).

(** The state [st] after the bytes [bytes] were sent to the peer. *)
Definition sent {M : Type} (st : state M) (bytes : list byte) : state M :=
  let s := sock (sess st) in
  mkState (on_sock (sess st)
             (mkSock (rd s) (rd_end s) (wr s ++ bytes) (wr_err s) (closed s)))
          (logged st).

(** The state [st] after [line] was logged. *)
Definition logging {M : Type} (st : state M) (line : log_line) : state M :=
  mkState (sess st) (logged st ++ [line]).

(** The session [c] with its per-message state cleared. *)
Definition cleared {M : Type} (c : milterSession M) : milterSession M :=
  mkSession (actions c) (protocol c) (sock c) None None (milter c).

(** The computation [m] leaves the part [f] of the session as it was,
    however it ends. *)
Definition keeps {M A X : Type} (f : milterSession M -> X) (m : Go M A) : Prop :=
  forall st : state M, f (sess (fst (m st))) = f (sess st).

(** [f] looks at nothing a read changes, at nothing a write changes, and
    at neither of the two per-message maps nor at the filter. *)
Definition blind_to_reads {M X : Type} (f : milterSession M -> X) : Prop :=
  forall c s, rd_end s = rd_end (sock c) -> wr s = wr (sock c) ->
    wr_err s = wr_err (sock c) -> closed s = closed (sock c) ->
    f (on_sock c s) = f c.

Definition blind_to_writes {M X : Type} (f : milterSession M -> X) : Prop :=
  forall c s, rd s = rd (sock c) -> rd_end s = rd_end (sock c) ->
    wr_err s = wr_err (sock c) -> closed s = closed (sock c) ->
    f (on_sock c s) = f c.

Definition blind_to_message_state {M X : Type} (f : milterSession M -> X) : Prop :=
  forall c h ma mi,
    f (mkSession (actions c) (protocol c) (sock c) h ma mi) = f c.

(** How [Process] ends in state [st] when it returns what a call of the
    filter gave: the filter's state is the one the call left, the result
    is the call's result, the rest of the session is untouched. *)
Definition answered {M : Type} (st : state M) (call : M * Result)
  : state M * outcome Result :=
  (mkState (mkSession (actions (sess st)) (protocol (sess st)) (sock (sess st))
                      (headers (sess st)) (macros (sess st)) (fst call))
           (logged st),
   Ret (snd call)).

(** The two capability bitmasks of a session. *)
Definition bitmasks {M : Type} (c : milterSession M) : Z * Z :=
  (actions c, protocol c).

(** ** Vocabulary of the further properties *)

(** Whatever the computation [m] logs, it appends, and every line it
    appends satisfies [P]. *)
Definition logs_only {M A : Type} (P : log_line -> Prop) (m : Go M A) : Prop :=
  forall st : state M,
    exists new : list log_line, logged (fst (m st)) = logged st ++ new /\ Forall P new.

(** A line written by [log.Fatal]. *)
Definition fatal_line (l : log_line) : Prop :=
  match l with
  | FatalLine _ _ => True
  | PrintfLine _ _ => False
  end.

(** A line of [log.Fatal], of the default case of [Process], or of the
    error branch after [Process] in the session loop. *)
Definition loop_line (l : log_line) : Prop :=
  match l with
  | FatalLine _ _ => True
  | PrintfLine format _ =>
      format = "Unrecognized command code: %c"
      \/ format = "Error performing milter command: %v"
  end.

(** The state [st] with the macros [m], and with the headers [h]. *)
Definition with_macros {M : Type} (st : state M) (m : gmap string string) : state M :=
  mkState (mkSession (actions (sess st)) (protocol (sess st)) (sock (sess st))
                     (headers (sess st)) (Some m) (milter (sess st)))
          (logged st).

Definition with_headers {M : Type} (st : state M) (h : gmap string (list string))
  : state M :=
  mkState (mkSession (actions (sess st)) (protocol (sess st)) (sock (sess st))
                     (Some h) (macros (sess st)) (milter (sess st)))
          (logged st).

(** The strings of a list of name/value pairs, in order. *)
Definition flatten_pairs (pairs : list (string * string)) : list string :=
  flat_map (fun kv => [fst kv; snd kv]) pairs.

(** The map that storing the pairs one after the other into an empty map
    gives. *)
Definition macros_of (pairs : list (string * string)) : gmap string string :=
  fold_left (fun m kv => <[ fst kv := snd kv ]> m) pairs ∅.

(** [s] has neither of the two angle brackets. *)
Fixpoint no_brackets (s : string) : bool :=
  match s with
  | EmptyString => true
  | String c rest => negb (strings.in_cutset c "<>") && no_brackets rest
  end.

(** ** A filter that records its calls

    Its state is the list of the calls it has received, oldest first; every
    call answers Continue. [net.IP] is kept as the text of the address. *)
Module Recorder.

Inductive call : Type :=
| ConnectCall (host fam : string) (port : Z) (addr : string)
| HeloCall (name : string)
| MailFromCall (from : string)
| RcptToCall (rcpt : string)
| HeaderCall (name value : string)
| HeadersCall (h : option (gmap string (list string)))
| BodyChunkCall (chunk : list byte)
| BodyCall.

Definition record (m : list call) (c : call) : list call * Result :=
  (m ++ [c], (Some RespContinue, None)).

Definition filter : Milter (list call) string :=
  {| Connect := fun m host fam port addr _ => record m (ConnectCall host fam port addr);
     Helo := fun m name _ => record m (HeloCall name);
     MailFrom := fun m from _ => record m (MailFromCall from);
     RcptTo := fun m rcpt _ => record m (RcptToCall rcpt);
     Header := fun m name value _ => record m (HeaderCall name value);
     Headers := fun m h _ => record m (HeadersCall h);
     BodyChunk := fun m chunk _ => record m (BodyChunkCall chunk);
     Body := fun m _ => record m BodyCall |}.

Definition ParseIP (s : string) : string := s.

(** A transport on which the peer sends [bytes] and then closes. *)
Definition peer (bytes : list byte) : Sock := mkSock bytes io_EOF [] None false.

(** A fresh session, as [RunServer] makes it, with all actions allowed and
    no stage masked, reading [bytes]. *)
Definition start (bytes : list byte) : state (list call) :=
  mkState (new_session [] 0x3f 0 (peer bytes)) [].

Definition process := Process ParseIP filter.
Definition serve := HandleMilterCommands ParseIP filter.

(** [s] with its terminator. *)
Definition cstr (s : string) : list byte := list_byte_of_string s ++ [x00].

(** The commands [cmds] dispatched one after the other. *)
Definition run (cmds : list Message) (st : state (list call)) : state (list call) :=
  fold_left (fun st msg => fst (process msg st)) cmds st.

(** A response whose payload has [2^32 - 1] bytes. *)
Definition huge_payload : list byte := repeat x00 (Z.to_nat 4294967295).
Definition huge_frame : Message := mkMessage "c" huge_payload.

(** The recording filter, except that the end-of-body callback fails with
    an error and no response. *)
Definition failing : Milter (list call) string :=
  {| Connect := Connect filter;
     Helo := Helo filter;
     MailFrom := MailFrom filter;
     RcptTo := RcptTo filter;
     Header := Header filter;
     Headers := Headers filter;
     BodyChunk := BodyChunk filter;
     Body := fun m _ => (m ++ [BodyCall], (None, Some (OtherError "scan failed"))) |}.

(** A fresh session on a transport that refuses every write. *)
Definition broken : state (list call) :=
  mkState (new_session [] 0x3f 0
             (mkSock [] io_EOF [] (Some (OtherError "broken pipe")) false)) [].

End Recorder.

(** * Properties *)

(** ** Big-endian integers *)

Module WireFacts.
Import Wire.
Local Open Scope Z_scope.

Lemma Z_of_byte_of_Z z : Z_of_byte (byte_of_Z z) = z mod 2 ^ 8.
Proof.
  unfold Z_of_byte, byte_of_Z.
  change 255 with (Z.ones 8). rewrite Z.land_ones by lia.
  pose proof (Z.mod_pos_bound z (2 ^ 8) ltac:(lia)) as Hb.
  destruct (Byte.of_N (Z.to_N (z mod 2 ^ 8))) as [b|] eqn:E.
  - apply Byte.to_of_N in E. rewrite E. lia.
  - apply Byte.of_N_None_iff in E. lia.
Qed.

Lemma testbit_low_byte z n :
  0 <= n -> Z.testbit (z mod 2 ^ 8) n = if n <? 8 then Z.testbit z n else false.
Proof.
  intros Hn. destruct (Z.ltb_spec n 8).
  - apply Z.mod_pow2_bits_low; lia.
  - apply Z.mod_pow2_bits_high; lia.
Qed.

Lemma testbit_above_uint32 v n : is_uint32 v -> 32 <= n -> Z.testbit v n = false.
Proof.
  intros [H0 H1] Hn. destruct (Z.eq_dec v 0) as [->|Hv]; [apply Z.bits_0|].
  apply Z.bits_above_log2; [lia|].
  apply Z.lt_le_trans with 32; [|lia]. apply Z.log2_lt_pow2; lia.
Qed.

(** Reading back the four bytes of a 32-bit value gives the value. *)
Lemma Uint32_PutUint32 v rest : is_uint32 v -> Uint32 (PutUint32 v ++ rest) = v.
Proof.
  intros Hv. unfold PutUint32, Uint32. cbn [app].
  rewrite !Z_of_byte_of_Z. apply Z.bits_inj'. intros n Hn.
  rewrite !Z.lor_spec, !Z.shiftl_spec by lia.
  destruct (Z.ltb_spec n 8);
    [|destruct (Z.ltb_spec n 16);
      [|destruct (Z.ltb_spec n 24); [|destruct (Z.ltb_spec n 32)]]].
  all: rewrite ?(Z.testbit_neg_r _ (n - 8)), ?(Z.testbit_neg_r _ (n - 16)),
         ?(Z.testbit_neg_r _ (n - 24)) by lia.
  all: repeat (rewrite testbit_low_byte by lia).
  all: rewrite ?Z.shiftr_spec by lia.
  all: repeat match goal with
         | |- context [?a <? ?b] => destruct (Z.ltb_spec a b); try lia
         end.
  all: rewrite ?orb_false_r, ?orb_false_l; try reflexivity; try (f_equal; lia).
  symmetry. apply testbit_above_uint32; [assumption | lia].
Qed.

Lemma PutUint32_length v : length (PutUint32 v) = 4%nat.
Proof. reflexivity. Qed.

Lemma uint32_small z : is_uint32 z -> uint32 z = z.
Proof. intros H. unfold uint32. apply Z.mod_small. exact H. Qed.

End WireFacts.

(** ** The string decoder *)

Lemma string_of_list_byte_length (l : list byte) :
  String.length (string_of_list_byte l) = length l.
Proof.
  unfold string_of_list_byte.
  induction l as [|b l IH]; simpl; [reflexivity | now rewrite IH].
Qed.

(** A string with no null byte inside, followed by its terminator, is read
    back whole. *)
Lemma readCBytes_terminated (s rest : list byte) :
  x00 ∉ s -> readCBytes (s ++ x00 :: rest) = s.
Proof.
  induction s as [|b s IH]; intros Hs; simpl.
  - reflexivity.
  - destruct (Byte.eqb b x00) eqn:E.
    + apply Byte.byte_dec_bl in E. subst b. exfalso. apply Hs. left.
    + f_equal. apply IH. intros Hin. apply Hs. now right.
Qed.

Lemma readCString_terminated (s rest : list byte) :
  x00 ∉ s -> readCString (s ++ x00 :: rest) = string_of_list_byte s.
Proof. intros Hs. unfold readCString. now rewrite readCBytes_terminated. Qed.

(** ** Slices *)

Lemma slice_from_past {M : Type} (s : list byte) (b : byte) (rest : list byte) :
  @slice_from M (s ++ b :: rest) (length s + 1) = ret rest.
Proof.
  unfold slice_from.
  replace (length s + 1 <=? length (s ++ b :: rest))%nat with true.
  - f_equal. rewrite Nat.add_1_r. change (b :: rest) with ([b] ++ rest).
    rewrite app_assoc, drop_app_length'; [reflexivity|].
    rewrite length_app. simpl. lia.
  - symmetry. apply Nat.leb_le. rewrite length_app. simpl. lia.
Qed.

Section SessionFacts.

Context {M IP : Type}.
Variable ParseIP : string -> IP.
Variable F : Milter M IP.

Local Abbreviation Process := (Process ParseIP F).

(** The start of case 'C' on a payload that has a terminated host name and
    a family byte. *)
Lemma connect_prefix (hostname : list byte) (fam : byte) (rest : list byte) st :
  x00 ∉ hostname ->
  Process (mkMessage "C" (hostname ++ x00 :: fam :: rest)) st =
  (let connect (Port : Z) (data3 : list byte) :=
       call_milter (fun m =>
         Connect F m (string_of_list_byte hostname) (family fam) Port
                 (ParseIP (readCString data3))) in
   if Byte.eqb fam "4" || Byte.eqb fam "6" then
     if (length rest <? 2)%nat then ret (Some RespTempFail, None)
     else data3 <- slice_from rest 2 ;; connect (Wire.Uint16 rest) data3
   else connect 0%Z rest) st.
Proof.
  intros Hs. unfold Process. cbn [Code Data].
  rewrite readCString_terminated by assumption.
  rewrite string_of_list_byte_length, slice_from_past.
  reflexivity.
Qed.

(** C7. A connection-info command with an IP family byte ('4' or '6') and
    fewer than two bytes after the family byte gets the TempFail verdict
    and no error; the session is left as it was. *)
Theorem short_ip_connect_is_tempfail (hostname : list byte) (fam : byte) (rest : list byte) st :
  x00 ∉ hostname -> fam = "4"%byte \/ fam = "6"%byte -> (length rest < 2)%nat ->
  Process (mkMessage "C" (hostname ++ x00 :: fam :: rest)) st = (st, Ret (Some RespTempFail, None)).
Proof.
  intros Hs Hfam Hlen. rewrite connect_prefix by assumption.
  apply Nat.ltb_lt in Hlen.
  cbv zeta. rewrite Hlen. destruct Hfam as [-> | ->]; reflexivity.
Qed.

Lemma family_outside_table (fam : byte) :
  fam ∉ [ "U"; "L"; "4"; "6" ]%byte -> family fam = "".
Proof.
  intros Hfam. destruct fam; try reflexivity; exfalso; apply Hfam;
    repeat first [ left | right ].
Qed.

Lemma not_ip_family (fam : byte) :
  fam ∉ [ "U"; "L"; "4"; "6" ]%byte -> Byte.eqb fam "4" || Byte.eqb fam "6" = false.
Proof.
  intros Hfam. destruct fam; try reflexivity; exfalso; apply Hfam;
    repeat first [ left | right ].
Qed.

(** A call of the filter returns: [Process] passes on what the filter
    answered and keeps the rest of the session. *)
Lemma call_milter_returns (f : M -> Modifier -> M * Result) (st : state M) :
  call_milter f st = answered st (f (milter (sess st)) (newModifier (sess st))).
Proof.
  unfold call_milter, bind, get_session, answered.
  destruct (f (milter (sess st)) (newModifier (sess st))) as [m r]. reflexivity.
Qed.

(** C10. A connection-info command whose family byte is none of U, L, 4
    and 6 does not fail: no port is read, the address is taken right after
    the family byte, Connect is called with the empty family name and port
    0, and [Process] returns what Connect returned. *)
Theorem unknown_family_connect (hostname : list byte) (fam : byte) (rest : list byte) st :
  x00 ∉ hostname -> fam ∉ [ "U"; "L"; "4"; "6" ]%byte ->
  Process (mkMessage "C" (hostname ++ x00 :: fam :: rest)) st =
  answered st
    (Connect F (milter (sess st)) (string_of_list_byte hostname) "" 0%Z
       (ParseIP (readCString rest)) (newModifier (sess st))).
Proof.
  intros Hs Hfam. rewrite connect_prefix by assumption. cbv zeta.
  rewrite not_ip_family, family_outside_table by assumption.
  apply call_milter_returns.
Qed.

(** C4. Whatever the client proposes, the answer to a negotiate command is
    a response with code 'O' whose twelve payload bytes are, big-endian,
    the version 2, the session's action mask and the session's protocol
    mask; the session is left as it was. *)
Theorem negotiate_echoes_own_masks (proposal : list byte) (st : state M) :
  Wire.is_uint32 (actions (sess st)) -> Wire.is_uint32 (protocol (sess st)) ->
  exists payload : list byte,
    Process (mkMessage "O" proposal) st = (st, Ret (Some (NewResponse "O" payload), None))
    /\ length payload = 12
    /\ Wire.Uint32 payload = 2%Z
    /\ Wire.Uint32 (drop 4 payload) = actions (sess st)
    /\ Wire.Uint32 (drop 8 payload) = protocol (sess st).
Proof.
  intros Ha Hp.
  exists (Wire.PutUint32 2 ++ Wire.PutUint32 (actions (sess st))
            ++ Wire.PutUint32 (protocol (sess st))).
  split; [reflexivity|]. split; [reflexivity|].
  split; [apply WireFacts.Uint32_PutUint32; unfold Wire.is_uint32; lia|].
  split.
  - change (drop 4 _) with
      (Wire.PutUint32 (actions (sess st)) ++ Wire.PutUint32 (protocol (sess st))).
    now apply WireFacts.Uint32_PutUint32.
  - change (drop 8 _) with (Wire.PutUint32 (protocol (sess st)) ++ []).
    now apply WireFacts.Uint32_PutUint32.
Qed.

(** ** What the methods leave alone *)

Section Frame.

Context {X : Type} (f : milterSession M -> X).

Lemma keeps_ret {A} (a : A) : keeps f (ret a).
Proof. intros st. reflexivity. Qed.

Lemma keeps_throw {A} (p : panic) : keeps f (@throw M A p).
Proof. intros st. reflexivity. Qed.

Lemma keeps_bind {A B} (m : Go M A) (k : A -> Go M B) :
  keeps f m -> (forall a, keeps f (k a)) -> keeps f (bind m k).
Proof.
  intros Hm Hk st. unfold bind. specialize (Hm st).
  destruct (m st) as [st' [a | n | p]]; simpl in *; [|assumption..].
  rewrite <- Hm. apply Hk.
Qed.

Lemma keeps_get_session : keeps f get_session.
Proof. intros st. reflexivity. Qed.

Lemma keeps_log_Printf format arg : keeps f (log_Printf format arg).
Proof. intros st. reflexivity. Qed.

Lemma keeps_log_Fatal tag err : keeps f (log_Fatal tag err).
Proof. intros st. reflexivity. Qed.

Lemma keeps_index a i : keeps f (index a i).
Proof. unfold index. destruct (a !! i); [apply keeps_ret | apply keeps_throw]. Qed.

Lemma keeps_slice_from a low : keeps f (slice_from a low).
Proof.
  unfold slice_from. destruct (low <=? length a)%nat; [apply keeps_ret | apply keeps_throw].
Qed.

Lemma keeps_sock_ReadFull n : blind_to_reads f -> keeps f (sock_ReadFull n).
Proof.
  intros Hf st. unfold sock_ReadFull, bind, get_session, set_sock, put_session, io.ReadFull.
  destruct (n <=? length (rd (sock (sess st))))%nat; simpl; apply Hf; reflexivity.
Qed.

Lemma keeps_sock_Write p : blind_to_writes f -> keeps f (sock_Write p).
Proof.
  intros Hf st. unfold sock_Write, bind, get_session, set_sock, put_session, io.Write.
  destruct (wr_err (sock (sess st))) eqn:E; simpl; apply Hf; simpl; congruence.
Qed.

Lemma keeps_set_headers h : blind_to_message_state f -> keeps f (set_headers h).
Proof. intros Hf st. apply Hf. Qed.

Lemma keeps_set_macros m : blind_to_message_state f -> keeps f (set_macros m).
Proof. intros Hf st. apply Hf. Qed.

Lemma keeps_macros_store k v : blind_to_message_state f -> keeps f (macros_store k v).
Proof.
  intros Hf. unfold macros_store. apply keeps_bind; [apply keeps_get_session|].
  intros c. destruct (macros c); [now apply keeps_set_macros | apply keeps_throw].
Qed.

Lemma keeps_headers_Add k v : blind_to_message_state f -> keeps f (headers_Add k v).
Proof.
  intros Hf. unfold headers_Add. apply keeps_bind; [apply keeps_get_session|].
  intros c. destruct (headers c); [now apply keeps_set_headers | apply keeps_throw].
Qed.

Lemma keeps_call_milter g : blind_to_message_state f -> keeps f (call_milter g).
Proof.
  intros Hf st. rewrite call_milter_returns. apply Hf.
Qed.

Lemma keeps_store_macros i len rest :
  blind_to_message_state f -> keeps f (store_macros i len rest).
Proof.
  intros Hf. revert i. induction rest as [rest IH] using (induction_ltof1 _ (@length _)).
  intros i. destruct rest as [|k [|v rest']]; simpl.
  - apply keeps_ret.
  - apply keeps_throw.
  - apply keeps_bind; [now apply keeps_macros_store|]. intros _. apply IH.
    unfold ltof. simpl. lia.
Qed.

End Frame.

Ltac frame :=
  repeat first
    [ apply keeps_ret | apply keeps_throw | apply keeps_get_session
    | apply keeps_log_Printf | apply keeps_log_Fatal
    | apply keeps_index | apply keeps_slice_from
    | apply keeps_sock_ReadFull; assumption
    | apply keeps_sock_Write; assumption
    | apply keeps_set_headers; assumption
    | apply keeps_set_macros; assumption
    | apply keeps_headers_Add; assumption
    | apply keeps_store_macros; assumption
    | apply keeps_call_milter; assumption
    | match goal with
      | |- keeps _ (bind _ _) => apply keeps_bind; [| intros ? ]
      end
    | progress cbv zeta
    | match goal with
      | |- keeps _ (match ?x with _ => _ end) => destruct x
      end ].

Lemma keeps_ReadPacket {X} (f : milterSession M -> X) :
  blind_to_reads f -> keeps f ReadPacket.
Proof. intros Hf. unfold ReadPacket, binary_Read_uint32. frame. Qed.

Lemma keeps_WritePacket {X} (f : milterSession M -> X) msg :
  blind_to_writes f -> keeps f (WritePacket msg).
Proof.
  intros Hf. unfold WritePacket, bufio.Write, bufio.WriteByte, bufio.Flush. frame.
Qed.

Lemma keeps_Process {X} (f : milterSession M -> X) msg :
  blind_to_message_state f -> keeps f (Process msg).
Proof. intros Hf. unfold Process. destruct (Code msg); frame. Qed.

Lemma keeps_handle_one {X} (f : milterSession M -> X) :
  blind_to_reads f -> blind_to_writes f -> blind_to_message_state f ->
  keeps f (handle_one ParseIP F).
Proof.
  intros Hr Hw Hm. unfold handle_one.
  apply keeps_bind; [now apply keeps_ReadPacket|]. intros [[msg|] [err|]]; frame.
  - now apply keeps_Process.
  - now apply keeps_WritePacket.
Qed.

Lemma keeps_handle_loop {X} (f : milterSession M -> X) fuel :
  blind_to_reads f -> blind_to_writes f -> blind_to_message_state f ->
  forall st st' o, handle_loop ParseIP F fuel st = Some (st', o) -> f (sess st') = f (sess st).
Proof.
  intros Hr Hw Hm. induction fuel as [|fuel IH]; intros st st' o; simpl; [discriminate|].
  pose proof (keeps_handle_one f Hr Hw Hm st) as H1.
  destruct (handle_one ParseIP F st) as [st1 [[|] | n | p]]; simpl in H1.
  - intros H. rewrite <- H1. eapply IH, H.
  - intros [= <- <-]. exact H1.
  - intros [= <- <-]. exact H1.
  - intros [= <- <-]. exact H1.
Qed.

(** ** The frame reader, case by case *)

Lemma ReadPacket_unfold (st : state M) :
  ReadPacket st =
  let s := sock (sess st) in
  if (4 <=? length (rd s))%nat then
    let n := Z.to_nat (Wire.Uint32 (take 4 (rd s))) in
    let body := drop 4 (rd s) in
    if (n <=? length body)%nat then
      (unread st (drop n body),
       match take n body with
       | [] => Panic (IndexOutOfRange 0 0)
       | code :: data => Ret (Some (mkMessage code data), None)
       end)
    else
      (logging (unread st []) (FatalLine "dempo" (io.short_read_error body (rd_end s))),
       Exit 1)
  else
    (logging (unread st []) (FatalLine "dempo2" (io.short_read_error (rd s) (rd_end s))),
     Exit 1).
Proof.
  unfold ReadPacket, binary_Read_uint32, sock_ReadFull, io.ReadFull.
  unfold bind at 1 2 3. unfold get_session at 1. cbv zeta.
  destruct (4 <=? length (rd (sock (sess st))))%nat eqn:E4.
  - cbn [bind set_sock get_session put_session ret sess sock rd logged].
    unfold bind at 1 2. cbn [bind set_sock get_session put_session ret sess sock rd logged
                             rd_end wr wr_err closed actions protocol headers macros milter].
    destruct (Z.to_nat (Wire.Uint32 (take 4 (rd (sock (sess st)))))
                <=? length (drop 4 (rd (sock (sess st)))))%nat eqn:En.
    + cbn [bind set_sock get_session put_session ret sess sock rd logged
           rd_end wr wr_err closed actions protocol headers macros milter].
      destruct (take _ (drop 4 _)) as [|code data]; reflexivity.
    + reflexivity.
  - reflexivity.
Qed.

(** ** The loop ends *)

Lemma ReadPacket_consumes (st st' : state M) r :
  ReadPacket st = (st', Ret r) ->
  length (rd (sock (sess st'))) + 4 <= length (rd (sock (sess st))).
Proof.
  rewrite ReadPacket_unfold. cbv zeta.
  destruct (4 <=? length (rd (sock (sess st))))%nat eqn:E4; [|discriminate].
  apply Nat.leb_le in E4.
  destruct (_ <=? length (drop 4 _))%nat; [|discriminate].
  intros [= <- _]. cbn [unread sess sock rd on_sock]. rewrite !length_drop.
  lia.
Qed.

Lemma handle_one_consumes (st st' : state M) :
  handle_one ParseIP F st = (st', Ret true) ->
  length (rd (sock (sess st'))) < length (rd (sock (sess st))).
Proof.
  unfold handle_one. unfold bind at 1.
  destruct (ReadPacket st) as [st1 [r | n | p]] eqn:ER; [|discriminate..].
  apply ReadPacket_consumes in ER.
  match goal with |- ?k st1 = _ -> _ =>
    assert (Hk : keeps (fun c => rd (sock c)) k)
  end.
  { assert (blind_to_message_state (fun c : milterSession M => rd (sock c)))
      by (intros c h ma mi; reflexivity).
    assert (blind_to_writes (fun c : milterSession M => rd (sock c)))
      by (intros c s Hs _ _ _; exact Hs).
    destruct r as [[msg|] [err|]]; frame.
    - now apply keeps_Process.
    - now apply keeps_WritePacket. }
  intros H. specialize (Hk st1). rewrite H in Hk. simpl in Hk. rewrite Hk. lia.
Qed.

Lemma handle_loop_total (fuel : nat) (st : state M) :
  length (rd (sock (sess st))) < fuel -> is_Some (handle_loop ParseIP F fuel st).
Proof.
  revert st. induction fuel as [|fuel IH]; intros st Hlt; [lia|]. simpl.
  destruct (handle_one ParseIP F st) as [st1 [[|] | n | p]] eqn:E1; try (eexists; reflexivity).
  apply IH. apply handle_one_consumes in E1. lia.
Qed.

(** On an input stream that ends (the finite [rd]), the session loop
    ends: with a return, with the exit of the process, or with a panic. *)
Lemma HandleMilterCommands_total (st : state M) :
  is_Some (HandleMilterCommands ParseIP F st).
Proof.
  unfold HandleMilterCommands.
  destruct (handle_loop_total (S (length (rd (sock (sess st))))) st) as [r Hr]; [lia|].
  rewrite Hr. eexists. reflexivity.
Qed.

(** ** The session loop on single frames *)

Lemma handle_loop_step (fuel : nat) (st st' : state M) (again : bool) :
  handle_one ParseIP F st = (st', Ret again) ->
  handle_loop ParseIP F (S fuel) st =
  if again then handle_loop ParseIP F fuel st' else Some (st', Ret tt).
Proof. intros H. simpl. rewrite H. now destruct again. Qed.

Lemma handle_loop_stops (fuel : nat) (st st' : state M) (o : outcome bool) :
  handle_one ParseIP F st = (st', o) -> (forall b, o <> Ret b) ->
  handle_loop ParseIP F (S fuel) st =
  Some (st', match o with Ret _ => Ret tt | Exit n => Exit n | Panic p => Panic p end).
Proof.
  intros H Ho. simpl. rewrite H. destruct o as [b | n | p]; [|reflexivity..].
  now destruct (Ho b).
Qed.

Lemma Process_unrecognized (msg : Message) (st : state M) :
  recognized (Code msg) = false ->
  Process msg st =
  (logging st (PrintfLine "Unrecognized command code: %c" (ArgByte (Code msg))),
   Ret (None, Some errCloseSession)).
Proof.
  destruct msg as [code data]. cbn [Code]. intros Hc.
  destruct code; try discriminate Hc; reflexivity.
Qed.

Lemma ReadPacket_returns (st st1 : state M) r :
  ReadPacket st = (st1, Ret r) ->
  logged st1 = logged st /\ wr (sock (sess st1)) = wr (sock (sess st))
  /\ closed (sock (sess st1)) = closed (sock (sess st)).
Proof.
  rewrite ReadPacket_unfold. cbv zeta.
  destruct (4 <=? _)%nat; [|discriminate].
  destruct (_ <=? length (drop 4 _))%nat; [|discriminate].
  intros [= <- _]. repeat split.
Qed.

(** C8. When the frame read has a command byte [Process] has no case for,
    the session loop returns at once: the transport is closed, nothing has
    been written to the peer, and the one line logged names the code. *)
Theorem unknown_command_closes_session (st st1 : state M) (msg : Message) :
  ReadPacket st = (st1, Ret (Some msg, None)) ->
  recognized (Code msg) = false ->
  exists st' : state M,
    HandleMilterCommands ParseIP F st = Some (st', Ret tt)
    /\ closed (sock (sess st')) = true
    /\ wr (sock (sess st')) = wr (sock (sess st))
    /\ logged st' =
       logged st ++ [PrintfLine "Unrecognized command code: %c" (ArgByte (Code msg))].
Proof.
  intros Hread Hcode.
  destruct (ReadPacket_returns _ _ _ Hread) as (Hlog & Hwr & _).
  assert (Hone : handle_one ParseIP F st =
                 (logging st1 (PrintfLine "Unrecognized command code: %c"
                                 (ArgByte (Code msg))), Ret false)).
  { unfold handle_one. unfold bind at 1. rewrite Hread.
    unfold bind at 1. rewrite Process_unrecognized by assumption. reflexivity. }
  unfold HandleMilterCommands.
  rewrite (handle_loop_step _ _ _ _ Hone). eexists. split; [reflexivity|].
  simpl. rewrite Hwr, Hlog. repeat split.
Qed.

(** C5. An abort command clears the per-message state from any state the
    session can be in, so after any earlier commands: [Process] sets
    headers and macros to nil, gives no response and no error, and touches
    nothing else. The turn of the loop writes nothing and leaves the
    transport open, and the loop does not return: it runs its next turn,
    which starts by reading the next command from the state the abort
    left, and the outcome of that turn decides how the loop goes on; a
    quit command that follows the abort is read and ends the session. *)
Theorem abort_clears_message_state (st st1 : state M) (msg : Message) :
  ReadPacket st = (st1, Ret (Some msg, None)) ->
  Code msg = "A"%byte ->
  (forall st0 : state M,
     Process msg st0 = (mkState (cleared (sess st0)) (logged st0), Ret (None, None)))
  /\ exists st2 : state M,
       Process msg st1 = (st2, Ret (None, None))
       /\ headers (sess st2) = None /\ macros (sess st2) = None
       /\ sock (sess st2) = sock (sess st1) /\ logged st2 = logged st1
       /\ handle_one ParseIP F st = (st2, Ret true)
       /\ (forall fuel, handle_loop ParseIP F (S fuel) st = handle_loop ParseIP F fuel st2)
       /\ wr (sock (sess st2)) = wr (sock (sess st))
       /\ closed (sock (sess st2)) = closed (sock (sess st))
       /\ (forall fuel,
             handle_loop ParseIP F (S (S fuel)) st =
             match handle_one ParseIP F st2 with
             | (st3, Ret true) => handle_loop ParseIP F fuel st3
             | (st3, Ret false) => Some (st3, Ret tt)
             | (st3, Exit n) => Some (st3, Exit n)
             | (st3, Panic p) => Some (st3, Panic p)
             end)
       /\ HandleMilterCommands ParseIP F st =
          deferred_Close <$>
            match handle_one ParseIP F st2 with
            | (st3, Ret true) =>
                handle_loop ParseIP F (length (rd (sock (sess st))) - 1) st3
            | (st3, Ret false) => Some (st3, Ret tt)
            | (st3, Exit n) => Some (st3, Exit n)
            | (st3, Panic p) => Some (st3, Panic p)
            end
       /\ (forall (st3 : state M) (next : Message),
             ReadPacket st2 = (st3, Ret (Some next, None)) ->
             Code next = "Q"%byte ->
             HandleMilterCommands ParseIP F st =
             Some (mkState (on_sock (sess st3) (io.Close (sock (sess st3)))) (logged st),
                   Ret tt)).
Proof.
  intros Hread Hcode.
  assert (Habort : forall st0 : state M,
    Process msg st0 = (mkState (cleared (sess st0)) (logged st0), Ret (None, None))).
  { intros st0. unfold Process. rewrite Hcode. reflexivity. }
  split; [exact Habort|].
  exists (mkState (cleared (sess st1)) (logged st1)).
  set (st2 := mkState (cleared (sess st1)) (logged st1)).
  assert (Hone : handle_one ParseIP F st = (st2, Ret true)).
  { unfold handle_one. unfold bind at 1. rewrite Hread.
    unfold bind at 1. rewrite Habort. reflexivity. }
  destruct (ReadPacket_returns _ _ _ Hread) as (Hlog & Hwr & Hcl).
  assert (Hnext : forall fuel,
    handle_loop ParseIP F (S (S fuel)) st =
    match handle_one ParseIP F st2 with
    | (st3, Ret true) => handle_loop ParseIP F fuel st3
    | (st3, Ret false) => Some (st3, Ret tt)
    | (st3, Exit n) => Some (st3, Exit n)
    | (st3, Panic p) => Some (st3, Panic p)
    end).
  { intros fuel. rewrite (handle_loop_step _ _ _ _ Hone). reflexivity. }
  assert (Hwhole : HandleMilterCommands ParseIP F st =
    deferred_Close <$>
      match handle_one ParseIP F st2 with
      | (st3, Ret true) => handle_loop ParseIP F (length (rd (sock (sess st))) - 1) st3
      | (st3, Ret false) => Some (st3, Ret tt)
      | (st3, Exit n) => Some (st3, Exit n)
      | (st3, Panic p) => Some (st3, Panic p)
      end).
  { unfold HandleMilterCommands. pose proof (ReadPacket_consumes _ _ _ Hread) as Hc.
    destruct (length (rd (sock (sess st)))) as [|n]; [lia|].
    rewrite Hnext. now replace (S n - 1) with n by lia. }
  split; [apply Habort|].
  split; [reflexivity|]. split; [reflexivity|]. split; [reflexivity|].
  split; [reflexivity|]. split; [exact Hone|].
  split; [intros fuel; now rewrite (handle_loop_step _ _ _ _ Hone)|].
  split; [exact Hwr|]. split; [exact Hcl|]. split; [exact Hnext|].
  split; [exact Hwhole|].
  intros st3 next Hread2 Hquit.
  assert (Htwo : handle_one ParseIP F st2 = (st3, Ret false)).
  { assert (Hp : Process next st3 = (st3, Ret (None, Some errCloseSession))).
    { unfold Process. rewrite Hquit. reflexivity. }
    unfold handle_one. unfold bind at 1. rewrite Hread2.
    unfold bind at 1. rewrite Hp. reflexivity. }
  rewrite Hwhole, Htwo.
  destruct (ReadPacket_returns _ _ _ Hread2) as (Hlog2 & _ & _).
  cbn. rewrite Hlog2. cbn. rewrite Hlog. reflexivity.
Qed.

Lemma bitmasks_blind :
  blind_to_reads (@bitmasks M) /\ blind_to_writes (@bitmasks M)
  /\ blind_to_message_state (@bitmasks M).
Proof. repeat split. Qed.

(** C9. No operation of the session assigns to the action bitmask or to
    the protocol bitmask: each of [ReadPacket], [Process] (for any command)
    and [WritePacket] leaves both as they were, however it ends, and so
    does the whole session loop, which always ends. *)
Theorem bitmasks_never_change (msg : Message) (st : state M) :
  bitmasks (sess (fst (ReadPacket st))) = bitmasks (sess st)
  /\ bitmasks (sess (fst (Process msg st))) = bitmasks (sess st)
  /\ bitmasks (sess (fst (WritePacket msg st))) = bitmasks (sess st)
  /\ exists st' o,
       HandleMilterCommands ParseIP F st = Some (st', o)
       /\ bitmasks (sess st') = bitmasks (sess st).
Proof.
  destruct bitmasks_blind as (Hr & Hw & Hm).
  split; [now apply keeps_ReadPacket|].
  split; [now apply keeps_Process|].
  split; [now apply keeps_WritePacket|].
  unfold HandleMilterCommands.
  destruct (handle_loop_total (S (length (rd (sock (sess st))))) st) as [[st' o] Hr']; [lia|].
  rewrite Hr'. pose proof (keeps_handle_loop bitmasks _ Hr Hw Hm _ _ _ Hr') as Hk.
  destruct o as [[] | n | p]; eexists _, _; (split; [reflexivity|]); exact Hk.
Qed.

(** ** Frames that break the reader or the dispatcher *)

Lemma ReadPacket_never_returns_error (st st' : state M) m (e : error) :
  ReadPacket st <> (st', Ret (m, Some e)).
Proof.
  rewrite ReadPacket_unfold. cbv zeta.
  destruct (4 <=? _)%nat; [|discriminate].
  destruct (_ <=? length (drop 4 _))%nat; [|discriminate].
  match goal with |- (_, match ?t with _ => _ end) <> _ => destruct t end; discriminate.
Qed.

Lemma macros_store_made (st : state M) (k v : string) :
  is_Some (macros (sess st)) ->
  exists st', macros_store k v st = (st', Ret tt) /\ is_Some (macros (sess st')).
Proof.
  intros [m Hm]. unfold macros_store, bind, get_session. rewrite Hm.
  eexists. split; [reflexivity|]. simpl. eexists. reflexivity.
Qed.

(** The loop of case 'D' on an odd number of strings reads one past the
    end of [data]. *)
Lemma store_macros_odd (st : state M) (rest : list string) (i len : nat) :
  is_Some (macros (sess st)) -> Nat.Odd (length rest) ->
  exists st', store_macros i len rest st = (st', Panic (IndexOutOfRange (i + length rest) len)).
Proof.
  revert st i. induction rest as [rest IH] using (induction_ltof1 _ (@length _)).
  intros st i Hm Hodd. destruct rest as [|k [|v rest']].
  - destruct Hodd as [n Hn]. simpl in Hn. lia.
  - eexists. reflexivity.
  - cbn [store_macros]. unfold bind at 1.
    destruct (macros_store_made st k v Hm) as (st1 & -> & Hm1).
    destruct (IH rest' ltac:(unfold ltof; simpl; lia) st1 (i + 2) Hm1) as [st' H'].
    { destruct Hodd as [n Hn]. exists (n - 1). simpl in Hn. lia. }
    exists st'. rewrite H'. do 3 f_equal. simpl. lia.
Qed.

(** C1. A frame that declares length 0 and a define-macros command whose
    strings are odd in number do not end in an error result: the reader
    indexes the empty payload and the macro loop reads past the last
    string, so each panics, and the panic leaves the session loop. *)
Theorem malformed_frames_panic (st : state M) (rest : list byte)
    (selector : byte) (tail : list byte) :
  rd (sock (sess st)) = [x00; x00; x00; x00] ++ rest ->
  Nat.Odd (length (decodeCStrings tail)) ->
  ReadPacket st = (unread st rest, Panic (IndexOutOfRange 0 0))
  /\ (exists st', HandleMilterCommands ParseIP F st = Some (st', Panic (IndexOutOfRange 0 0)))
  /\ (exists st', Process (mkMessage "D" (selector :: tail)) st =
                  (st', Panic (IndexOutOfRange (length (decodeCStrings tail))
                                               (length (decodeCStrings tail))))).
Proof.
  intros Hrd Hodd.
  assert (Hread : ReadPacket st = (unread st rest, Panic (IndexOutOfRange 0 0))).
  { rewrite ReadPacket_unfold. cbv zeta. rewrite Hrd. reflexivity. }
  split; [exact Hread|]. split.
  - unfold HandleMilterCommands.
    rewrite (handle_loop_stops _ st (unread st rest) (Panic (IndexOutOfRange 0 0))).
    + eexists. reflexivity.
    + unfold handle_one. unfold bind at 1. rewrite Hread. reflexivity.
    + discriminate.
  - unfold Process. cbn [Code Data]. unfold bind at 1. cbn [set_macros bind get_session put_session].
    unfold bind at 1. cbn [slice_from length Nat.leb ret drop].
    change (drop 0 tail) with tail.
    destruct (length (decodeCStrings tail) =? 0)%nat eqn:E0.
    { apply Nat.eqb_eq in E0. destruct Hodd as [n Hn]. lia. }
    unfold bind at 1.
    match goal with |- context [store_macros 0 ?len ?data ?s] =>
      destruct (store_macros_odd s data 0 len) as [st' ->]
    end.
    + eexists. reflexivity.
    + assumption.
    + eexists. reflexivity.
Qed.

(** C2. A read failure on the length prefix is not returned to the session
    loop: [ReadPacket] logs it through [log.Fatal], also when it is a clean
    EOF, and the process exits with the transport still open; no call of
    [ReadPacket] ever returns an error. *)
Theorem read_failure_exits_process (st : state M) :
  length (rd (sock (sess st))) < 4 ->
  let err := io.short_read_error (rd (sock (sess st))) (rd_end (sock (sess st))) in
  let st' := logging (unread st []) (FatalLine "dempo2" err) in
  ReadPacket st = (st', Exit 1)
  /\ HandleMilterCommands ParseIP F st = Some (st', Exit 1)
  /\ closed (sock (sess st')) = closed (sock (sess st))
  /\ forall (st0 st1 : state M) m e, ReadPacket st0 <> (st1, Ret (m, Some e)).
Proof.
  intros Hshort err st'.
  assert (Hread : ReadPacket st = (st', Exit 1)).
  { rewrite ReadPacket_unfold. cbv zeta.
    destruct (4 <=? _)%nat eqn:E4; [apply Nat.leb_le in E4; lia | reflexivity]. }
  split; [exact Hread|]. split; [|split; [reflexivity|]].
  - unfold HandleMilterCommands.
    rewrite (handle_loop_stops _ st st' (Exit 1)).
    + reflexivity.
    + unfold handle_one. unfold bind at 1. rewrite Hread. reflexivity.
    + discriminate.
  - intros st0 st1 m e. apply ReadPacket_never_returns_error.
Qed.

(** ** The frame codec *)

Lemma sock_Write_accepted (p : list byte) (st : state M) :
  wr_err (sock (sess st)) = None -> sock_Write p st = (sent st p, Ret None).
Proof.
  intros Hw. unfold sock_Write, io.Write, bind, get_session, sent. cbv zeta.
  rewrite Hw. reflexivity.
Qed.

Lemma sent_sent (st : state M) (p q : list byte) : sent (sent st p) q = sent st (p ++ q).
Proof. unfold sent. cbn. now rewrite <- app_assoc. Qed.

Lemma bufio_Write_fits (buffered p : list byte) :
  length p <= bufio.size - length buffered ->
  @bufio.Write M buffered p = ret (buffered ++ p, None).
Proof.
  intros H. unfold bufio.Write. apply Nat.leb_le in H. now rewrite H.
Qed.

(** On a transport that accepts the writes, [Write] followed by [Flush]
    sends what was held back and then [p]. *)
Lemma bufio_Write_Flush (buffered p : list byte) (st : state M) :
  wr_err (sock (sess st)) = None ->
  (w <- bufio.Write buffered p ;;
   match w with
   | (_, Some err) => log_Fatal "dempo4" err ;; ret (Some err)
   | (buffer, None) =>
       w <- bufio.Flush buffer ;;
       match w with
       | Some err => log_Fatal "dempo5" err ;; ret (Some err)
       | None => ret None
       end
   end) st
  = (if (length (buffered ++ p) =? 0)%nat then st else sent st (buffered ++ p), Ret None).
Proof.
  intros Hw. unfold bufio.Write.
  assert (Hsent : forall q, wr_err (sock (sess (sent st q))) = None) by (intros q; exact Hw).
  destruct (length p <=? bufio.size - length buffered)%nat eqn:Efit.
  - unfold bind at 1. cbn [ret]. unfold bufio.Flush.
    destruct (buffered ++ p) as [|b q] eqn:E; [reflexivity|].
    unfold bind at 1. rewrite sock_Write_accepted by assumption. reflexivity.
  - apply Nat.leb_gt in Efit.
    assert (Hne : (length (buffered ++ p) =? 0)%nat = false)
      by (apply Nat.eqb_neq; rewrite length_app; lia).
    rewrite Hne.
    destruct (length buffered =? 0)%nat eqn:Eb.
    + apply Nat.eqb_eq in Eb. destruct buffered; [|discriminate Eb].
      unfold bind at 1 2. rewrite sock_Write_accepted by assumption. reflexivity.
    + unfold bind at 1 2. rewrite sock_Write_accepted by assumption. cbv beta iota zeta.
      set (n := bufio.size - length buffered).
      destruct (length (drop n p) <=? bufio.size)%nat.
      * unfold bufio.Flush. cbn [ret].
        destruct (drop n p) as [|b q] eqn:E.
        { assert (length (drop n p) = 0) by now rewrite E. rewrite length_drop in H.
          subst n. lia. }
        unfold bind at 1. rewrite sock_Write_accepted by apply Hsent.
        rewrite sent_sent, <- E, <- app_assoc, take_drop. reflexivity.
      * unfold bind at 1 2. rewrite sock_Write_accepted by apply Hsent.
        cbn. rewrite sent_sent, <- app_assoc, take_drop. reflexivity.
Qed.

Lemma WritePacket_sends (msg : Message) (st : state M) :
  wr_err (sock (sess st)) = None ->
  WritePacket msg st =
  (sent st (Wire.PutUint32 (Wire.uint32 (Z.of_nat (length (Data msg)) + 1))
              ++ [Code msg] ++ Data msg),
   Ret None).
Proof.
  intros Hw. unfold WritePacket. cbv zeta.
  rewrite bufio_Write_fits by (cbn; lia). unfold bind at 1. cbn [ret].
  unfold bind at 1, bufio.WriteByte. cbn [ret length Nat.eqb Nat.sub bufio.size app
    bufio.NewWriter Wire.PutUint32].
  rewrite bufio_Write_Flush by assumption. reflexivity.
Qed.

Lemma ReadPacket_frame (st : state M) (n : Z) (body rest : list byte) :
  Wire.is_uint32 n -> Z.to_nat n = length body ->
  rd (sock (sess st)) = Wire.PutUint32 n ++ body ++ rest ->
  ReadPacket st =
  (unread st rest,
   match body with
   | [] => Panic (IndexOutOfRange 0 0)
   | code :: data => Ret (Some (mkMessage code data), None)
   end).
Proof.
  intros Hn Hlen Hrd. rewrite ReadPacket_unfold. cbv zeta. rewrite Hrd.
  assert (H4 : length (Wire.PutUint32 n) = 4) by reflexivity.
  replace (4 <=? length (Wire.PutUint32 n ++ body ++ rest))%nat with true
    by (symmetry; apply Nat.leb_le; rewrite length_app, H4; lia).
  rewrite (take_app_length' _ _ 4 (eq_sym H4)), (drop_app_length' _ _ 4 (eq_sym H4)).
  rewrite <- (app_nil_r (Wire.PutUint32 n)), WireFacts.Uint32_PutUint32 by assumption.
  rewrite Hlen.
  replace (length body <=? length (body ++ rest))%nat with true
    by (symmetry; apply Nat.leb_le; rewrite length_app; lia).
  rewrite take_app_length, drop_app_length. reflexivity.
Qed.

(** C3, as amended. For every frame whose payload is shorter than
    [2^32 - 1] bytes, [WritePacket] on a transport that accepts the write
    sends exactly the wire form of the frame: four bytes that read
    big-endian as [1 + len(data)], then the command byte, then the data.
    [ReadPacket] on a stream that starts with these bytes returns the same
    frame and leaves the rest of the stream unread. *)
Theorem frame_round_trip (msg : Message) (writer reader : state M) (rest : list byte) :
  (1 + Z.of_nat (length (Data msg)) < 2 ^ 32)%Z ->
  wr_err (sock (sess writer)) = None ->
  rd (sock (sess reader)) = wire_form msg ++ rest ->
  WritePacket msg writer = (sent writer (wire_form msg), Ret None)
  /\ Wire.Uint32 (wire_form msg) = (1 + Z.of_nat (length (Data msg)))%Z
  /\ drop 4 (wire_form msg) = Code msg :: Data msg
  /\ ReadPacket reader = (unread reader rest, Ret (Some msg, None)).
Proof.
  intros Hlen Hw Hrd.
  assert (Hn : Wire.is_uint32 (1 + Z.of_nat (length (Data msg))))
    by (unfold Wire.is_uint32; lia).
  split; [|split; [|split]].
  - rewrite WritePacket_sends by assumption. unfold wire_form.
    rewrite Z.add_comm, WireFacts.uint32_small by assumption. reflexivity.
  - unfold wire_form. now apply WireFacts.Uint32_PutUint32.
  - reflexivity.
  - rewrite (ReadPacket_frame reader (1 + Z.of_nat (length (Data msg)))
               (Code msg :: Data msg) rest Hn).
    + now destruct msg.
    + simpl. lia.
    + rewrite Hrd. unfold wire_form. now rewrite <- !app_assoc.
Qed.

(** A payload of [2^32 - 1] bytes makes the length prefix wrap to 0; the
    reader then takes the frame for an empty one. *)
Lemma WritePacket_wraps (msg : Message) (writer reader : state M) (rest : list byte) :
  Z.of_nat (length (Data msg)) = 4294967295%Z ->
  wr_err (sock (sess writer)) = None ->
  rd (sock (sess reader)) = ([x00; x00; x00; x00] ++ [Code msg] ++ Data msg) ++ rest ->
  WritePacket msg writer =
    (sent writer ([x00; x00; x00; x00] ++ [Code msg] ++ Data msg), Ret None)
  /\ ReadPacket reader =
    (unread reader (([Code msg] ++ Data msg) ++ rest), Panic (IndexOutOfRange 0 0)).
Proof.
  intros Hlen Hw Hrd. split.
  - rewrite WritePacket_sends by assumption. rewrite Hlen. reflexivity.
  - apply (ReadPacket_frame reader 0 [] (([Code msg] ++ Data msg) ++ rest)).
    + unfold Wire.is_uint32. lia.
    + reflexivity.
    + rewrite Hrd. reflexivity.
Qed.

(** ** Headers *)

Lemma Process_header (st : state M) (d : list byte) (name value : string) :
  decodeCStrings d = [name; value] ->
  Process (mkMessage "L" d) st =
  call_milter (fun m => Header F m name value)
    (mkState (mkSession (actions (sess st)) (protocol (sess st)) (sock (sess st))
                (Some (textproto.Add (default ∅ (headers (sess st))) name value))
                (macros (sess st)) (milter (sess st)))
             (logged st)).
Proof.
  intros Hd. unfold Process. cbn [Code Data]. rewrite Hd.
  destruct st as [[a p s [h|] ma mi] lg]; reflexivity.
Qed.

Lemma Process_header_headers (st : state M) (d : list byte) (name value : string) :
  decodeCStrings d = [name; value] ->
  headers (sess (fst (Process (mkMessage "L" d) st))) =
  Some (textproto.Add (default ∅ (headers (sess st))) name value).
Proof.
  intros Hd. rewrite (Process_header st d name value Hd), call_milter_returns. reflexivity.
Qed.

Lemma Add_lookup (h : gmap string (list string)) (name value k : string) :
  textproto.Add h name value !! k =
  if decide (textproto.CanonicalMIMEHeaderKey name = k)
  then Some (default [] (h !! k) ++ [value]) else h !! k.
Proof.
  unfold textproto.Add. cbv zeta. rewrite lookup_insert.
  destruct (decide (textproto.CanonicalMIMEHeaderKey name = k)) as [<-|]; reflexivity.
Qed.

(** C6, as amended. After two header commands and an end-of-headers
    command, the Headers callback receives the session's header map with
    both values added under the canonical MIME form of their names: when
    the two canonical names are equal the two values are at the end of that
    name's list in the order of arrival, otherwise each value is at the end
    of its own name's list; every other name is as it was before. *)
Theorem headers_aggregate_by_canonical_name (st : state M) (d1 d2 dN : list byte)
    (name1 value1 name2 value2 : string) :
  decodeCStrings d1 = [name1; value1] ->
  decodeCStrings d2 = [name2; value2] ->
  let st1 := fst (Process (mkMessage "L" d1) st) in
  let st2 := fst (Process (mkMessage "L" d2) st1) in
  let key1 := textproto.CanonicalMIMEHeaderKey name1 in
  let key2 := textproto.CanonicalMIMEHeaderKey name2 in
  let before := default ∅ (headers (sess st)) in
  exists h : gmap string (list string),
    Process (mkMessage "N" dN) st2 =
      answered st2 (Headers F (milter (sess st2)) (Some h) (newModifier (sess st2)))
    /\ h = textproto.Add (textproto.Add before name1 value1) name2 value2
    /\ (key1 = key2 ->
        h !! key1 = Some (default [] (before !! key1) ++ [value1; value2]))
    /\ (key1 <> key2 ->
        h !! key1 = Some (default [] (before !! key1) ++ [value1])
        /\ h !! key2 = Some (default [] (before !! key2) ++ [value2]))
    /\ (forall k, k <> key1 -> k <> key2 -> h !! k = before !! k).
Proof.
  intros Hd1 Hd2 st1 st2 key1 key2 before.
  exists (textproto.Add (textproto.Add before name1 value1) name2 value2).
  assert (H2 : headers (sess st2) =
               Some (textproto.Add (textproto.Add before name1 value1) name2 value2)).
  { unfold st2. rewrite (Process_header_headers st1 d2 name2 value2 Hd2).
    unfold st1. rewrite (Process_header_headers st d1 name1 value1 Hd1). reflexivity. }
  split.
  { unfold Process. cbn [Code]. unfold bind at 1, get_session at 1. cbv beta iota.
    now rewrite H2, call_milter_returns. }
  split; [reflexivity|].
  fold key1 key2. split; [|split].
  - intros Hk. rewrite !Add_lookup. fold key1 key2. rewrite <- Hk.
    rewrite !decide_True by reflexivity.
    unfold default at 1. cbn [from_option id]. now rewrite <- app_assoc.
  - intros Hk. rewrite !Add_lookup. fold key1 key2.
    rewrite (decide_False (P := key2 = key1)) by congruence.
    rewrite !decide_True by reflexivity.
    rewrite (decide_False (P := key1 = key2)) by congruence. split; reflexivity.
  - intros k Hk1 Hk2. rewrite !Add_lookup. fold key1 key2.
    rewrite !decide_False by congruence. reflexivity.
Qed.

(** * Further properties of the session *)

(** ** What the methods log *)

Section Logs.

Variable P : log_line -> Prop.

Lemma logs_ret {A} (a : A) : logs_only P (@ret M A a).
Proof. intros st. exists []. split; [symmetry; apply app_nil_r | constructor]. Qed.

Lemma logs_throw {A} (p : panic) : logs_only P (@throw M A p).
Proof. intros st. exists []. split; [symmetry; apply app_nil_r | constructor]. Qed.

Lemma logs_quiet {A} (m : Go M A) :
  (forall st, logged (fst (m st)) = logged st) -> logs_only P m.
Proof.
  intros H st. exists []. rewrite H. split; [symmetry; apply app_nil_r | constructor].
Qed.

(** The continuation need only be looked at for the values the first
    part can return. *)
Lemma logs_bind {A B} (m : Go M A) (k : A -> Go M B) :
  logs_only P m ->
  (forall a, (exists st st', m st = (st', Ret a)) -> logs_only P (k a)) ->
  logs_only P (bind m k).
Proof.
  intros Hm Hk st. unfold bind. destruct (Hm st) as (new1 & E1 & F1).
  destruct (m st) as [st' [a | n | p]] eqn:E; simpl in *;
    [| exists new1; now split ..].
  destruct (Hk a (ex_intro _ st (ex_intro _ st' E)) st') as (new2 & E2 & F2).
  exists (new1 ++ new2). rewrite E2, E1, app_assoc. split; [reflexivity|].
  apply Forall_app. now split.
Qed.

Lemma logs_log_Printf format arg :
  P (PrintfLine format arg) -> logs_only P (@log_Printf M format arg).
Proof. intros H st. exists [PrintfLine format arg]. split; [reflexivity|]. now repeat constructor. Qed.

Lemma logs_log_Fatal tag err :
  P (FatalLine tag err) -> logs_only P (@log_Fatal M tag err).
Proof. intros H st. exists [FatalLine tag err]. split; [reflexivity|]. now repeat constructor. Qed.

Lemma logs_call_milter g : logs_only P (@call_milter M g).
Proof. apply logs_quiet. intros st. now rewrite call_milter_returns. Qed.

Lemma logs_index a i : logs_only P (@index M a i).
Proof. unfold index. destruct (a !! i); [apply logs_ret | apply logs_throw]. Qed.

Lemma logs_slice_from a low : logs_only P (@slice_from M a low).
Proof.
  unfold slice_from. destruct (low <=? length a)%nat; [apply logs_ret | apply logs_throw].
Qed.

Lemma logs_sock_ReadFull n : logs_only P (@sock_ReadFull M n).
Proof.
  apply logs_quiet. intros st.
  unfold sock_ReadFull, bind, get_session, set_sock, put_session, io.ReadFull.
  now destruct (n <=? length (rd (sock (sess st))))%nat.
Qed.

Lemma logs_sock_Write p : logs_only P (@sock_Write M p).
Proof.
  apply logs_quiet. intros st.
  unfold sock_Write, bind, get_session, set_sock, put_session, io.Write.
  now destruct (wr_err (sock (sess st))).
Qed.

Lemma logs_set_headers h : logs_only P (@set_headers M h).
Proof. now apply logs_quiet. Qed.

Lemma logs_set_macros m : logs_only P (@set_macros M m).
Proof. now apply logs_quiet. Qed.

Lemma logs_get_session : logs_only P (@get_session M).
Proof. now apply logs_quiet. Qed.

Lemma logs_macros_store k v : logs_only P (@macros_store M k v).
Proof.
  unfold macros_store. apply logs_bind; [apply logs_get_session|].
  intros c _. destruct (macros c); [apply logs_set_macros | apply logs_throw].
Qed.

Lemma logs_headers_Add k v : logs_only P (@headers_Add M k v).
Proof.
  unfold headers_Add. apply logs_bind; [apply logs_get_session|].
  intros c _. destruct (headers c); [apply logs_set_headers | apply logs_throw].
Qed.

Lemma logs_store_macros i len rest : logs_only P (@store_macros M i len rest).
Proof.
  revert i. induction rest as [rest IH] using (induction_ltof1 _ (@length _)).
  intros i. destruct rest as [|k [|v rest']]; simpl.
  - apply logs_ret.
  - apply logs_throw.
  - apply logs_bind; [apply logs_macros_store|]. intros _ _. apply IH.
    unfold ltof. simpl. lia.
Qed.

End Logs.

Ltac logs :=
  repeat first
    [ apply logs_ret | apply logs_throw | apply logs_get_session
    | apply logs_index | apply logs_slice_from
    | apply logs_sock_ReadFull | apply logs_sock_Write
    | apply logs_set_headers | apply logs_set_macros
    | apply logs_headers_Add | apply logs_store_macros | apply logs_call_milter
    | apply logs_log_Fatal; exact I
    | apply logs_log_Printf; first [ left; reflexivity | right; reflexivity ]
    | match goal with
      | |- logs_only _ (bind _ _) => apply logs_bind; [| intros ? _ ]
      end
    | progress cbv zeta
    | match goal with
      | |- logs_only _ (match ?x with _ => _ end) => destruct x
      end ].

Lemma logs_ReadPacket : logs_only fatal_line (@ReadPacket M).
Proof. unfold ReadPacket, binary_Read_uint32. logs. Qed.

Lemma logs_WritePacket msg : logs_only fatal_line (@WritePacket M msg).
Proof. unfold WritePacket, bufio.Write, bufio.WriteByte, bufio.Flush. logs. Qed.

Lemma logs_Process_recognized msg :
  recognized (Code msg) = true -> logs_only (fun _ => False) (Process msg).
Proof.
  intros Hc. unfold Process. destruct msg as [code data]. cbn [Code Data] in *.
  destruct code; try discriminate Hc; logs.
Qed.

Lemma logs_weaken {A} (P Q : log_line -> Prop) (m : Go M A) :
  (forall l, P l -> Q l) -> logs_only P m -> logs_only Q m.
Proof.
  intros HPQ Hm st. destruct (Hm st) as (new & E & HF). exists new. split; [exact E|].
  eapply Forall_impl; eauto.
Qed.

Lemma fatal_is_loop_line l : fatal_line l -> loop_line l.
Proof. now destruct l. Qed.

Lemma logs_Process msg : logs_only loop_line (Process msg).
Proof. unfold Process. destruct (Code msg); logs. Qed.

(** ** The frame writer, case by case *)

Lemma sock_Write_refused (p : list byte) (st : state M) (e : error) :
  wr_err (sock (sess st)) = Some e -> sock_Write p st = (st, Ret (Some e)).
Proof.
  destruct st as [[a pr s h ma mi] lg]. cbn [sess sock]. intros Hw.
  unfold sock_Write, io.Write, bind, get_session. cbn [sess sock]. rewrite Hw. reflexivity.
Qed.

Lemma WritePacket_outcome (msg : Message) (st : state M) :
  WritePacket msg st =
  match wr_err (sock (sess st)) with
  | None =>
      (sent st (Wire.PutUint32 (Wire.uint32 (Z.of_nat (length (Data msg)) + 1))
                  ++ [Code msg] ++ Data msg),
       Ret None)
  | Some err =>
      (logging st
         (FatalLine (if (4091 <? length (Data msg))%nat then "dempo4" else "dempo5") err),
       Exit 1)
  end.
Proof.
  destruct (wr_err (sock (sess st))) as [e|] eqn:Hw; [|now apply WritePacket_sends].
  unfold WritePacket. cbv zeta.
  rewrite bufio_Write_fits by (cbn; lia). unfold bind at 1. cbn [ret].
  unfold bind at 1, bufio.WriteByte. cbn [ret length Nat.eqb Nat.sub bufio.size app
    bufio.NewWriter Wire.PutUint32].
  unfold bufio.Write. cbn [length]. change (bufio.size - 5) with 4091.
  destruct (4091 <? length (Data msg))%nat eqn:E.
  - apply Nat.ltb_lt in E.
    replace (length (Data msg) <=? 4091)%nat with false by (symmetry; apply Nat.leb_gt; lia).
    cbn [Nat.eqb]. unfold bind at 1 2. rewrite (sock_Write_refused _ _ e) by assumption.
    reflexivity.
  - apply Nat.ltb_ge in E.
    replace (length (Data msg) <=? 4091)%nat with true by (symmetry; apply Nat.leb_le; lia).
    unfold bind at 1. cbn [ret]. unfold bind at 1, bufio.Flush. cbn [app].
    rewrite (sock_Write_refused _ _ e) by assumption. reflexivity.
Qed.

Lemma WritePacket_never_returns_error (msg : Message) (st st' : state M) (e : error) :
  WritePacket msg st <> (st', Ret (Some e)).
Proof.
  rewrite WritePacket_outcome. destruct (wr_err (sock (sess st))); discriminate.
Qed.

Lemma logs_handle_one : logs_only loop_line (handle_one ParseIP F).
Proof.
  unfold handle_one. apply logs_bind.
  { eapply logs_weaken; [apply fatal_is_loop_line | apply logs_ReadPacket]. }
  intros [m [e|]] (st & st' & Hread).
  { now destruct (ReadPacket_never_returns_error _ _ _ _ Hread). }
  destruct m as [msg|]; [|apply logs_throw].
  apply logs_bind; [apply logs_Process|]. intros [resp [err|]] _.
  { logs. }
  destruct resp as [resp|]; [|apply logs_ret].
  apply logs_bind.
  { eapply logs_weaken; [apply fatal_is_loop_line | apply logs_WritePacket]. }
  intros [err|] (st1 & st1' & Hwrite).
  { now destruct (WritePacket_never_returns_error _ _ _ _ Hwrite). }
  apply logs_ret.
Qed.

Lemma logs_handle_loop (fuel : nat) (st st' : state M) (o : outcome unit) :
  handle_loop ParseIP F fuel st = Some (st', o) ->
  exists new, logged st' = logged st ++ new /\ Forall loop_line new.
Proof.
  revert st. induction fuel as [|fuel IH]; intros st; simpl; [discriminate|].
  destruct (logs_handle_one st) as (new1 & E1 & F1).
  destruct (handle_one ParseIP F st) as [st1 [[|] | n | p]]; simpl in E1.
  - intros H. destruct (IH _ H) as (new2 & E2 & F2).
    exists (new1 ++ new2). rewrite E2, E1, app_assoc. split; [reflexivity|].
    apply Forall_app. now split.
  - intros [= <- <-]. now exists new1.
  - intros [= <- <-]. now exists new1.
  - intros [= <- <-]. now exists new1.
Qed.

(** X9. The branches of the session loop that log "Error reading milter
    command" and "Error writing packet" are never taken. Every turn of the
    loop only appends to the log, and every line it appends comes from
    [log.Fatal], from the default case of [Process] or from the error
    branch after [Process]; so, whenever the loop ends (the input stream
    ends, or a turn returns, exits or panics), the lines it has added are
    of these three kinds. *)
Theorem loop_never_logs_transport_errors (st st' : state M) (o : outcome unit) :
  HandleMilterCommands ParseIP F st = Some (st', o) ->
  (exists new : list log_line, logged st' = logged st ++ new /\ Forall loop_line new)
  /\ logs_only loop_line (handle_one ParseIP F).
Proof.
  intros H. split; [|apply logs_handle_one].
  unfold HandleMilterCommands in H.
  destruct (handle_loop ParseIP F _ st) as [[st1 o1]|] eqn:Hl; [|discriminate H].
  destruct (logs_handle_loop _ _ _ _ Hl) as (new & E & HF).
  exists new. split; [|exact HF].
  destruct o1 as [[] | n | p]; cbn in H; injection H as <- _; exact E.
Qed.

(** X6. On a transport that refuses the write, [WritePacket] returns no
    error: it logs the failure through [log.Fatal], with the tag of the
    payload write when the payload does not fit the buffer after the five
    header bytes and the tag of the flush otherwise, and the process exits
    with nothing sent. *)
Theorem refused_write_exits_process (msg : Message) (st : state M) (err : error) :
  wr_err (sock (sess st)) = Some err ->
  WritePacket msg st =
  (logging st
     (FatalLine (if (4091 <? length (Data msg))%nat then "dempo4" else "dempo5") err),
   Exit 1).
Proof. intros Hw. rewrite WritePacket_outcome, Hw. reflexivity. Qed.

(** ** Single turns of the session loop *)

Lemma closed_blind :
  blind_to_reads (fun c : milterSession M => closed (sock c))
  /\ blind_to_writes (fun c : milterSession M => closed (sock c))
  /\ blind_to_message_state (fun c : milterSession M => closed (sock c)).
Proof.
  split; [|split].
  - intros c s _ _ _ H. exact H.
  - intros c s _ _ _ H. exact H.
  - intros c h ma mi. reflexivity.
Qed.

Lemma Process_keeps_sock (msg : Message) (st : state M) :
  sock (sess (fst (Process msg st))) = sock (sess st).
Proof. apply (keeps_Process sock). intros c h ma mi. reflexivity. Qed.

(** The turn of the loop in which [Process] returned an error. *)
Lemma handle_one_error (st st1 st2 : state M) (msg : Message)
    (resp : option Response) (err : error) :
  ReadPacket st = (st1, Ret (Some msg, None)) ->
  Process msg st1 = (st2, Ret (resp, Some err)) ->
  handle_one ParseIP F st =
  (if decide (err = errCloseSession) then st2
   else logging st2 (PrintfLine "Error performing milter command: %v" (ArgError err)),
   Ret false).
Proof.
  intros Hread Hproc. unfold handle_one. unfold bind at 1. rewrite Hread.
  unfold bind at 1. rewrite Hproc. unfold bind.
  destruct resp; (destruct (decide (err = errCloseSession)); [|reflexivity]);
    destruct st2; reflexivity.
Qed.

(** X1. A quit command ends the session silently: the loop returns with the
    transport closed, no byte written and no line logged, and the rest of
    the session as the read left it. *)
Theorem quit_ends_session_silently (st st1 : state M) (msg : Message) :
  ReadPacket st = (st1, Ret (Some msg, None)) ->
  Code msg = "Q"%byte ->
  HandleMilterCommands ParseIP F st =
    Some (mkState (on_sock (sess st1) (io.Close (sock (sess st1)))) (logged st), Ret tt)
  /\ wr (sock (sess st1)) = wr (sock (sess st)).
Proof.
  intros Hread Hcode.
  destruct (ReadPacket_returns _ _ _ Hread) as (Hlog & Hwr & _).
  split; [|exact Hwr].
  assert (Hproc : Process msg st1 = (st1, Ret (None, Some errCloseSession))).
  { unfold Process. rewrite Hcode. reflexivity. }
  pose proof (handle_one_error _ _ _ _ _ _ Hread Hproc) as Hone.
  rewrite decide_True in Hone by reflexivity.
  unfold HandleMilterCommands. rewrite (handle_loop_step _ _ _ _ Hone).
  cbn. rewrite Hlog. reflexivity.
Qed.

(** X4. When a callback returns an error, the loop writes nothing for the
    command, also when a response came with the error: it logs the error,
    unless it is [errCloseSession], and returns with the transport
    closed. *)
Theorem callback_error_ends_session (st st1 st2 : state M) (msg : Message)
    (resp : option Response) (err : error) :
  ReadPacket st = (st1, Ret (Some msg, None)) ->
  Process msg st1 = (st2, Ret (resp, Some err)) ->
  exists st' : state M,
    HandleMilterCommands ParseIP F st = Some (st', Ret tt)
    /\ closed (sock (sess st')) = true
    /\ wr (sock (sess st')) = wr (sock (sess st))
    /\ logged st' =
       logged st2 ++
       (if decide (err = errCloseSession) then []
        else [PrintfLine "Error performing milter command: %v" (ArgError err)]).
Proof.
  intros Hread Hproc.
  destruct (ReadPacket_returns _ _ _ Hread) as (_ & Hwr & _).
  pose proof (Process_keeps_sock msg st1) as Hsock. rewrite Hproc in Hsock. simpl in Hsock.
  pose proof (handle_one_error _ _ _ _ _ _ Hread Hproc) as Hone.
  unfold HandleMilterCommands. rewrite (handle_loop_step _ _ _ _ Hone).
  eexists. split; [reflexivity|].
  destruct (decide (err = errCloseSession)); cbn; rewrite Hsock, Hwr, ?app_nil_r;
    repeat split.
Qed.

(** The turn of the loop in which [Process] returned a response. *)
Lemma handle_one_response (st st1 st2 : state M) (msg : Message) (resp : Response) :
  ReadPacket st = (st1, Ret (Some msg, None)) ->
  Process msg st1 = (st2, Ret (Some resp, None)) ->
  wr_err (sock (sess st)) = None ->
  (1 + Z.of_nat (length (resp_data resp)) < 2 ^ 32)%Z ->
  handle_one ParseIP F st =
    (sent st2 (wire_form (Response_Message resp)), Ret (Continue resp)).
Proof.
  intros Hread Hproc Hw Hlen.
  pose proof (Process_keeps_sock msg st1) as Hsock. rewrite Hproc in Hsock. simpl in Hsock.
  assert (Hw1 : wr_err (sock (sess st1)) = None).
  { pose proof (keeps_ReadPacket (fun c => wr_err (sock c))
                  ltac:(intros c s _ _ H _; exact H) st) as H.
    rewrite Hread in H. simpl in H. congruence. }
  unfold handle_one. unfold bind at 1. rewrite Hread.
  unfold bind at 1. rewrite Hproc. unfold bind at 1.
  rewrite WritePacket_sends by congruence.
  unfold wire_form. cbn [Response_Message Data Code].
  rewrite (Z.add_comm (Z.of_nat _) 1), WireFacts.uint32_small
    by (unfold Wire.is_uint32; lia).
  reflexivity.
Qed.

(** X3. When [Process] returns a response and no error, and the transport
    accepts writes, the loop sends the frame of the response, a big-endian
    length [1 + len(data)], the code and the data, and nothing else; it
    goes on to the next command when the response says Continue and
    returns otherwise. *)
Theorem response_is_written (st st1 st2 : state M) (msg : Message) (resp : Response) :
  ReadPacket st = (st1, Ret (Some msg, None)) ->
  Process msg st1 = (st2, Ret (Some resp, None)) ->
  wr_err (sock (sess st)) = None ->
  (1 + Z.of_nat (length (resp_data resp)) < 2 ^ 32)%Z ->
  handle_one ParseIP F st =
    (sent st2 (wire_form (Response_Message resp)), Ret (Continue resp))
  /\ wr (sock (sess (sent st2 (wire_form (Response_Message resp))))) =
     wr (sock (sess st)) ++ wire_form (Response_Message resp)
  /\ forall fuel,
       handle_loop ParseIP F (S fuel) st =
       if Continue resp
       then handle_loop ParseIP F fuel (sent st2 (wire_form (Response_Message resp)))
       else Some (sent st2 (wire_form (Response_Message resp)), Ret tt).
Proof.
  intros Hread Hproc Hw Hlen.
  pose proof (Process_keeps_sock msg st1) as Hsock. rewrite Hproc in Hsock. simpl in Hsock.
  destruct (ReadPacket_returns _ _ _ Hread) as (_ & Hwr & _).
  pose proof (handle_one_response _ _ _ _ _ Hread Hproc Hw Hlen) as Hone.
  split; [exact Hone|]. split.
  - cbn. now rewrite Hsock, Hwr.
  - intros fuel. apply handle_loop_step. exact Hone.
Qed.

Lemma ReadPacket_frame_consumed (st st1 : state M) (msg : Message) :
  ReadPacket st = (st1, Ret (Some msg, None)) ->
  length (rd (sock (sess st1))) + 5 + length (Data msg) = length (rd (sock (sess st))).
Proof.
  rewrite ReadPacket_unfold. cbv zeta.
  destruct (4 <=? length (rd (sock (sess st))))%nat eqn:E4; [|discriminate].
  apply Nat.leb_le in E4.
  set (n := Z.to_nat (Wire.Uint32 (take 4 (rd (sock (sess st)))))). clearbody n.
  destruct (n <=? length (drop 4 (rd (sock (sess st)))))%nat eqn:En; [|discriminate].
  apply Nat.leb_le in En.
  destruct (take n (drop 4 (rd (sock (sess st))))) as [|code data] eqn:Et; [discriminate|].
  intros [= <- <-]. cbn [unread sess sock rd on_sock Data].
  assert (Hl : length (take n (drop 4 (rd (sock (sess st))))) = S (length data))
    by now rewrite Et.
  rewrite length_take in Hl. rewrite !length_drop in *. lia.
Qed.

(** X8. A turn of the loop that goes on to the next one has consumed one
    whole frame of the input and nothing more: the four length bytes, the
    command byte and the payload of the command it dispatched. *)
Theorem loop_turn_consumes_one_frame (st st' : state M) :
  handle_one ParseIP F st = (st', Ret true) ->
  exists msg : Message,
    fst (ReadPacket st) = unread st (rd (sock (sess st')))
    /\ snd (ReadPacket st) = Ret (Some msg, None)
    /\ length (rd (sock (sess st))) =
       4 + 1 + length (Data msg) + length (rd (sock (sess st'))).
Proof.
  unfold handle_one. unfold bind at 1.
  destruct (ReadPacket st) as [st1 [r | n | p]] eqn:ER; [|discriminate..].
  match goal with |- ?k st1 = _ -> _ =>
    assert (Hk : keeps (fun c => rd (sock c)) k)
  end.
  { assert (blind_to_message_state (fun c : milterSession M => rd (sock c)))
      by (intros c h ma mi; reflexivity).
    assert (blind_to_writes (fun c : milterSession M => rd (sock c)))
      by (intros c s Hs _ _ _; exact Hs).
    destruct r as [[msg|] [err|]]; frame.
    - now apply keeps_Process.
    - now apply keeps_WritePacket. }
  intros H. specialize (Hk st1). rewrite H in Hk. simpl in Hk.
  destruct r as [[msg|] [err|]].
  - now destruct (ReadPacket_never_returns_error _ _ _ _ ER).
  - exists msg. simpl. rewrite Hk.
    pose proof (ReadPacket_frame_consumed _ _ _ ER) as Hc.
    split; [|split; [reflexivity | lia]].
    revert ER. rewrite ReadPacket_unfold. cbv zeta.
    destruct (4 <=? _)%nat; [|discriminate].
    destruct (_ <=? length (drop 4 _))%nat; [|discriminate].
    intros [= <- _]. reflexivity.
  - now destruct (ReadPacket_never_returns_error _ _ _ _ ER).
  - discriminate H.
Qed.

(** X18. No turn of the session loop closes the transport: it is closed
    only by the deferred [sock.Close()], which runs when
    [HandleMilterCommands] returns or panics and not when [log.Fatal] ends
    the process. So, whenever the loop ends, the transport is closed after
    a return or a panic, and after an exit it is as it was at the start. *)
Theorem transport_closed_unless_exit (st st' : state M) (o : outcome unit) :
  HandleMilterCommands ParseIP F st = Some (st', o) ->
  closed (sock (sess st')) =
    match o with
    | Exit _ => closed (sock (sess st))
    | _ => true
    end
  /\ exists st1 : state M,
       handle_loop ParseIP F (S (length (rd (sock (sess st))))) st = Some (st1, o)
       /\ closed (sock (sess st1)) = closed (sock (sess st)).
Proof.
  intros H. destruct closed_blind as (Hr & Hw & Hm).
  unfold HandleMilterCommands in H.
  destruct (handle_loop ParseIP F _ st) as [[st1 o1]|] eqn:Hl; [|discriminate H].
  pose proof (keeps_handle_loop (fun c => closed (sock c)) _ Hr Hw Hm _ _ _ Hl) as Hk.
  destruct o1 as [[] | n | p]; cbn in H; injection H as <- <-;
    (split; [first [reflexivity | exact Hk] | exists st1; now split]).
Qed.

(** ** Define macros *)

Lemma store_macros_pairs (pairs : list (string * string)) (st : state M)
    (i len : nat) (m0 : gmap string string) :
  macros (sess st) = Some m0 ->
  store_macros i len (flatten_pairs pairs) st =
  (with_macros st (fold_left (fun m kv => <[ fst kv := snd kv ]> m) pairs m0), Ret tt).
Proof.
  revert st i m0. induction pairs as [|[k v] pairs IH]; intros st i m0 Hm.
  - destruct st as [[a p s h ma mi] lg]. cbn in Hm. subst ma. reflexivity.
  - cbn [flatten_pairs flat_map app fst snd store_macros fold_left].
    unfold bind at 1, macros_store, bind at 1, get_session at 1. cbv beta iota.
    rewrite Hm. cbn [set_macros bind get_session put_session sess logged].
    change (flat_map (fun kv => [fst kv; snd kv]) pairs) with (flatten_pairs pairs).
    rewrite (IH _ _ (<[k:=v]> m0)) by reflexivity. reflexivity.
Qed.

Lemma fold_insert_other (pairs : list (string * string)) (m : gmap string string)
    (k : string) :
  k ∉ map fst pairs ->
  fold_left (fun m kv => <[ fst kv := snd kv ]> m) pairs m !! k = m !! k.
Proof.
  revert m. induction pairs as [|[k' v'] pairs IH]; intros m Hk; [reflexivity|].
  cbn [fold_left fst snd]. rewrite IH.
  - apply lookup_insert_ne. intros ->. apply Hk. left.
  - intros Hin. apply Hk. now right.
Qed.

(** X2. A define-macros command whose strings are the pairs
    [(name, value)] replaces the session's macros by a fresh map holding
    exactly these pairs, whatever macros were there before; it calls no
    callback and gives no response and no error. A name that is not among
    the pairs is not defined, and a name given more than once keeps the
    value given last. *)
Theorem define_macros_stores_pairs (selector : byte) (tail : list byte)
    (pairs : list (string * string)) (st : state M) :
  decodeCStrings tail = flatten_pairs pairs ->
  Process (mkMessage "D" (selector :: tail)) st =
    (with_macros st (macros_of pairs), Ret (None, None))
  /\ (forall k, k ∉ map fst pairs -> macros_of pairs !! k = None)
  /\ (forall front k v back,
        pairs = front ++ (k, v) :: back -> k ∉ map fst back ->
        macros_of pairs !! k = Some v).
Proof.
  intros Hd. split; [|split].
  - unfold Process. cbn [Code Data]. unfold bind at 1.
    cbn [set_macros bind get_session put_session].
    unfold bind at 1. cbn [slice_from length Nat.leb ret drop].
    change (drop 0 tail) with tail. rewrite Hd.
    destruct (length (flatten_pairs pairs) =? 0)%nat eqn:E0.
    + destruct pairs as [|[k v] pairs]; [reflexivity | discriminate E0].
    + unfold bind at 1. rewrite (store_macros_pairs pairs _ _ _ ∅) by reflexivity.
      reflexivity.
  - intros k Hk. unfold macros_of. now rewrite fold_insert_other.
  - intros front k v back -> Hk. unfold macros_of.
    rewrite fold_left_app. cbn [fold_left fst snd].
    rewrite fold_insert_other by assumption. apply lookup_insert_eq.
Qed.

(** ** Headers that do not parse *)

(** X5. A header command whose payload does not decode to exactly two
    strings is dropped: no callback is called, nothing is added to the
    headers (a nil map becomes an empty one), and the answer is Continue. *)
Theorem malformed_header_is_dropped (d : list byte) (st : state M) :
  length (decodeCStrings d) <> 2 ->
  Process (mkMessage "L" d) st =
  (with_headers st (default ∅ (headers (sess st))), Ret (Some RespContinue, None)).
Proof.
  intros Hd. unfold Process. cbn [Code Data].
  destruct st as [[a p s h ma mi] lg].
  destruct (decodeCStrings d) as [|x [|y [|z l]]]; try (now destruct Hd);
    destruct h; reflexivity.
Qed.

(** ** Frames cut short *)

(** X7. When the stream ends inside the payload a frame declares,
    [ReadPacket] returns no error: it logs the failure through
    [log.Fatal] ([io.ErrUnexpectedEOF] when some payload bytes had come
    and the stream closed cleanly) and the process exits. *)
Theorem truncated_payload_exits_process (st : state M) (n : Z) (body : list byte) :
  Wire.is_uint32 n ->
  rd (sock (sess st)) = Wire.PutUint32 n ++ body ->
  length body < Z.to_nat n ->
  ReadPacket st =
  (logging (unread st [])
     (FatalLine "dempo" (io.short_read_error body (rd_end (sock (sess st))))),
   Exit 1).
Proof.
  intros Hn Hrd Hlen. rewrite ReadPacket_unfold. cbv zeta. rewrite Hrd.
  assert (H4 : length (Wire.PutUint32 n) = 4) by reflexivity.
  replace (4 <=? length (Wire.PutUint32 n ++ body))%nat with true
    by (symmetry; apply Nat.leb_le; rewrite length_app, H4; lia).
  rewrite (take_app_length' _ _ 4 (eq_sym H4)), (drop_app_length' _ _ 4 (eq_sym H4)).
  rewrite <- (app_nil_r (Wire.PutUint32 n)), WireFacts.Uint32_PutUint32 by assumption.
  replace (Z.to_nat n <=? length body)%nat with false
    by (symmetry; apply Nat.leb_gt; lia).
  reflexivity.
Qed.

(** ** Connection information *)

Lemma Z_of_byte_range (b : byte) : (0 <= Wire.Z_of_byte b < 256)%Z.
Proof. unfold Wire.Z_of_byte. pose proof (Byte.to_N_bounded b). lia. Qed.

(** The two port bytes read big-endian. *)
Lemma Uint16_value (p0 p1 : byte) (rest : list byte) :
  Wire.Uint16 (p0 :: p1 :: rest) = (256 * Wire.Z_of_byte p0 + Wire.Z_of_byte p1)%Z.
Proof.
  unfold Wire.Uint16.
  pose proof (Z_of_byte_range p0) as H0. pose proof (Z_of_byte_range p1) as H1.
  rewrite Z.shiftl_mul_pow2 by lia. rewrite <- Z.add_nocarry_lor; [lia|].
  apply Z.bits_inj'. intros n Hn. rewrite Z.land_spec, Z.bits_0.
  destruct (Z.ltb_spec n 8).
  - rewrite (Z.mul_pow2_bits_low (Wire.Z_of_byte p0) 8 n) by lia. apply andb_false_r.
  - replace (Z.testbit (Wire.Z_of_byte p1) n) with false; [reflexivity|].
    symmetry. rewrite <- (Z.mod_small (Wire.Z_of_byte p1) (2 ^ 8)) by lia.
    apply Z.mod_pow2_bits_high. lia.
Qed.

(** X10. A connection-info command with an IP family byte and at least the
    two port bytes calls Connect with the host name, the family name tcp4
    or tcp6, the port read big-endian from the two bytes after the family
    byte, and the address parsed from what follows the port; [Process]
    returns what Connect returned. *)
Theorem ip_connect_decodes_port (hostname : list byte) (fam p0 p1 : byte)
    (rest : list byte) (st : state M) :
  x00 ∉ hostname -> fam = "4"%byte \/ fam = "6"%byte ->
  Process (mkMessage "C" (hostname ++ x00 :: fam :: p0 :: p1 :: rest)) st =
  answered st
    (Connect F (milter (sess st)) (string_of_list_byte hostname)
       (if Byte.eqb fam "4" then "tcp4" else "tcp6")
       (256 * Wire.Z_of_byte p0 + Wire.Z_of_byte p1)%Z
       (ParseIP (readCString rest)) (newModifier (sess st))).
Proof.
  intros Hs Hfam. rewrite connect_prefix by assumption. cbv zeta.
  rewrite Uint16_value.
  destruct Hfam as [-> | ->]; cbn [Byte.eqb orb length Nat.ltb Nat.leb];
    unfold bind at 1; cbn [slice_from length Nat.leb ret drop];
    change (drop 0 rest) with rest; apply call_milter_returns.
Qed.

(** X11. A connection-info command with the family byte U or L reads no
    port: Connect is called with the family name unknown or unix, port 0
    and the address taken right after the family byte. *)
Theorem local_family_connect (hostname : list byte) (fam : byte) (rest : list byte)
    (st : state M) :
  x00 ∉ hostname -> fam = "U"%byte \/ fam = "L"%byte ->
  Process (mkMessage "C" (hostname ++ x00 :: fam :: rest)) st =
  answered st
    (Connect F (milter (sess st)) (string_of_list_byte hostname)
       (if Byte.eqb fam "U" then "unknown" else "unix") 0%Z
       (ParseIP (readCString rest)) (newModifier (sess st))).
Proof.
  intros Hs Hfam. rewrite connect_prefix by assumption. cbv zeta.
  destruct Hfam as [-> | ->]; apply call_milter_returns.
Qed.

(** X19. A connection-info command cut short is not answered with an
    error: with an empty payload the slice after the host name is out of
    bounds, and with nothing after the host name's terminator the family
    byte is read from an empty slice, so [Process] panics; a define-macros
    command with an empty payload panics on the slice after the selector
    byte, after the macros were replaced by an empty map. *)
Theorem truncated_commands_panic (hostname : list byte) (st : state M) :
  x00 ∉ hostname ->
  Process (mkMessage "C" []) st = (st, Panic (SliceBoundsOutOfRange 1 0))
  /\ Process (mkMessage "C" (hostname ++ [x00])) st = (st, Panic (IndexOutOfRange 0 0))
  /\ Process (mkMessage "D" []) st = (with_macros st ∅, Panic (SliceBoundsOutOfRange 1 0)).
Proof.
  intros Hs. split; [reflexivity|]. split; [|reflexivity].
  unfold Process. cbn [Code Data].
  rewrite readCString_terminated by assumption.
  rewrite string_of_list_byte_length, slice_from_past. reflexivity.
Qed.

(** ** HELO and the envelope addresses *)

Lemma string_of_list_byte_app (l1 l2 : list byte) :
  string_of_list_byte (l1 ++ l2) =
  String.append (string_of_list_byte l1) (string_of_list_byte l2).
Proof.
  unfold string_of_list_byte. induction l1 as [|b l1 IH]; simpl; [reflexivity|].
  now rewrite IH.
Qed.

Lemma substring_head (s t : string) :
  String.substring 0 (String.length s) (String.append s t) = s.
Proof.
  induction s as [|c s IH]; simpl.
  - now destruct t.
  - now rewrite IH.
Qed.

Lemma substring_whole (t : string) : String.substring 0 (String.length t) t = t.
Proof. induction t as [|c t IHt]; simpl; [reflexivity | now rewrite IHt]. Qed.

Lemma substring_tail (s t : string) :
  String.substring (String.length s) (String.length t) (String.append s t) = t.
Proof. induction s as [|c s IH]; simpl; [apply substring_whole | exact IH]. Qed.

Lemma String_length_append (s t : string) :
  String.length (String.append s t) = String.length s + String.length t.
Proof. induction s as [|c s IH]; simpl; [reflexivity | now rewrite IH]. Qed.

Lemma TrimSuffix_appended (s suffix : string) :
  strings.TrimSuffix (String.append s suffix) suffix = s.
Proof.
  unfold strings.TrimSuffix. rewrite String_length_append.
  replace (String.length s + String.length suffix - String.length suffix)
    with (String.length s) by lia.
  replace (String.length suffix <=? String.length s + String.length suffix)%nat
    with true by (symmetry; apply Nat.leb_le; lia).
  rewrite substring_tail, String.eqb_refl, substring_head. reflexivity.
Qed.

(** X12. A HELO command whose payload is a name followed by the null
    terminator calls Helo with the name: exactly one trailing null byte is
    cut off, and the rest of the payload is passed as it is. *)
Theorem helo_strips_terminator (name : string) (st : state M) :
  Process (mkMessage "H" (list_byte_of_string name ++ [x00])) st =
  answered st (Helo F (milter (sess st)) name (newModifier (sess st))).
Proof.
  unfold Process. cbn [Code Data].
  rewrite string_of_list_byte_app, string_of_list_byte_of_string.
  change (string_of_list_byte [x00]) with null.
  rewrite TrimSuffix_appended. apply call_milter_returns.
Qed.

Lemma TrimRight_cons (c : ascii) (r cutset : string) :
  strings.TrimRight (String c r) cutset =
  match strings.TrimRight r cutset with
  | EmptyString =>
      if strings.in_cutset c cutset then EmptyString else String c EmptyString
  | t => String c t
  end.
Proof. reflexivity. Qed.

Lemma TrimRight_closing (a : string) :
  no_brackets a = true -> strings.TrimRight (String.append a ">") "<>" = a.
Proof.
  induction a as [|c a IH]; intros Ha; [reflexivity|].
  cbn [no_brackets] in Ha. apply andb_true_iff in Ha as [Hc Ha].
  apply negb_true_iff in Hc.
  change (String.append (String c a) ">") with (String c (String.append a ">")).
  rewrite TrimRight_cons, (IH Ha).
  destruct a; [now rewrite Hc | reflexivity].
Qed.

Lemma Trim_brackets (a : string) :
  no_brackets a = true ->
  strings.Trim (String "<" (String.append a ">")) "<>" = a.
Proof.
  intros Ha. unfold strings.Trim.
  change (strings.TrimLeft (String "<" (String.append a ">")) "<>")
    with (strings.TrimLeft (String.append a ">") "<>").
  destruct a as [|c a]; [reflexivity|].
  pose proof Ha as Ha'. cbn [no_brackets] in Ha'. apply andb_true_iff in Ha' as [Hc _].
  apply negb_true_iff in Hc.
  change (String.append (String c a) ">") with (String c (String.append a ">")).
  change (strings.TrimLeft (String c (String.append a ">")) "<>")
    with (if strings.in_cutset c "<>"
          then strings.TrimLeft (String.append a ">") "<>"
          else String c (String.append a ">")).
  rewrite Hc. exact (TrimRight_closing (String c a) Ha).
Qed.

(** X13. A mail-from or rcpt-to command whose payload is an address in
    angle brackets, terminated by a null byte, calls MailFrom or RcptTo
    with the address without the brackets; what follows the terminator is
    ignored. *)
Theorem envelope_address_is_unbracketed (addr : string) (rest : list byte)
    (st : state M) :
  no_brackets addr = true ->
  x00 ∉ list_byte_of_string (String "<" (String.append addr ">")) ->
  Process (mkMessage "M"
             (list_byte_of_string (String "<" (String.append addr ">")) ++ x00 :: rest)) st
    = answered st (MailFrom F (milter (sess st)) addr (newModifier (sess st)))
  /\ Process (mkMessage "R"
                (list_byte_of_string (String "<" (String.append addr ">")) ++ x00 :: rest)) st
    = answered st (RcptTo F (milter (sess st)) addr (newModifier (sess st))).
Proof.
  intros Ha Hnul. unfold Process. cbn [Code Data].
  rewrite readCString_terminated by assumption.
  rewrite string_of_list_byte_of_string, Trim_brackets by assumption.
  split; apply call_milter_returns.
Qed.

(** ** What each method leaves alone *)

(** X14. [Process] never reads from, writes to or closes the transport,
    whatever the command and however it ends, and it logs nothing except
    the one line of the default case for a command code it has no case
    for. *)
Theorem Process_leaves_transport_alone (msg : Message) (st : state M) :
  sock (sess (fst (Process msg st))) = sock (sess st)
  /\ logged (fst (Process msg st)) =
     if recognized (Code msg) then logged st
     else logged st ++ [PrintfLine "Unrecognized command code: %c" (ArgByte (Code msg))].
Proof.
  split; [apply Process_keeps_sock|].
  destruct (recognized (Code msg)) eqn:Hc.
  - destruct (logs_Process_recognized msg Hc st) as (new & E & HF).
    destruct new as [|l new]; [now rewrite app_nil_r in E|].
    now inversion HF.
  - now rewrite Process_unrecognized.
Qed.

(** X16. [ReadPacket] only consumes input: however it ends, the session is
    as before except that the bytes still to arrive are a suffix of those
    there were; nothing is written, the transport is not closed, and the
    headers, the macros and the filter are untouched. *)
Theorem ReadPacket_only_consumes_input (st : state M) :
  exists k : nat,
    sess (fst (ReadPacket st)) = sess (unread st (drop k (rd (sock (sess st))))).
Proof.
  rewrite ReadPacket_unfold. cbv zeta.
  destruct (4 <=? _)%nat.
  - destruct (_ <=? length (drop 4 _))%nat.
    + eexists (4 + _). cbn [fst]. now rewrite drop_drop.
    + exists (length (rd (sock (sess st)))). cbn [fst logging sess]. now rewrite drop_all.
  - exists (length (rd (sock (sess st)))). cbn [fst logging sess]. now rewrite drop_all.
Qed.


(** ** Frames one after the other *)

Lemma ReadPacket_wire_form (st : state M) (msg : Message) (rest : list byte) :
  (1 + Z.of_nat (length (Data msg)) < 2 ^ 32)%Z ->
  rd (sock (sess st)) = wire_form msg ++ rest ->
  ReadPacket st = (unread st rest, Ret (Some msg, None)).
Proof.
  intros Hlen Hrd.
  rewrite (ReadPacket_frame st (1 + Z.of_nat (length (Data msg)))
             (Code msg :: Data msg) rest).
  - now destruct msg.
  - unfold Wire.is_uint32. lia.
  - simpl. lia.
  - rewrite Hrd. unfold wire_form. now rewrite <- !app_assoc.
Qed.

(** X20. Frames delimit themselves: two frames written one after the
    other by [WritePacket] arrive as the two wire forms back to back, and
    two calls of [ReadPacket] on such a stream return the first frame and
    then the second, leaving what follows unread. *)
Theorem frames_read_back_in_order (m1 m2 : Message) (writer reader : state M)
    (rest : list byte) :
  (1 + Z.of_nat (length (Data m1)) < 2 ^ 32)%Z ->
  (1 + Z.of_nat (length (Data m2)) < 2 ^ 32)%Z ->
  wr_err (sock (sess writer)) = None ->
  rd (sock (sess reader)) = wire_form m1 ++ wire_form m2 ++ rest ->
  WritePacket m2 (fst (WritePacket m1 writer)) =
    (sent writer (wire_form m1 ++ wire_form m2), Ret None)
  /\ ReadPacket reader = (unread reader (wire_form m2 ++ rest), Ret (Some m1, None))
  /\ ReadPacket (fst (ReadPacket reader)) = (unread reader rest, Ret (Some m2, None)).
Proof.
  intros H1 H2 Hw Hrd.
  assert (Hsize : forall m, (1 + Z.of_nat (length (Data m)) < 2 ^ 32)%Z ->
    Wire.PutUint32 (Wire.uint32 (Z.of_nat (length (Data m)) + 1)) ++ [Code m] ++ Data m
    = wire_form m).
  { intros m Hm. unfold wire_form.
    rewrite (Z.add_comm (Z.of_nat _) 1), WireFacts.uint32_small
      by (unfold Wire.is_uint32; lia). reflexivity. }
  pose proof (ReadPacket_wire_form reader m1 (wire_form m2 ++ rest) H1 Hrd) as Hr1.
  split; [|split; [exact Hr1|]].
  - rewrite (WritePacket_sends m1) by assumption. cbn [fst].
    rewrite (WritePacket_sends m2) by exact Hw.
    now rewrite sent_sent, !Hsize by assumption.
  - rewrite Hr1. cbn [fst].
    now rewrite (ReadPacket_wire_form _ m2 rest H2) by reflexivity.
Qed.

(** ** A whole session *)

(** X21. A session in which the peer negotiates and then quits: the loop
    returns with the transport closed, the only bytes sent are the frame
    of the negotiate response with the session's own masks, nothing is
    logged, and the input after the quit frame is left unread. *)
Theorem negotiate_then_quit (st : state M) (proposal qdata rest : list byte) :
  (1 + Z.of_nat (length proposal) < 2 ^ 32)%Z ->
  (1 + Z.of_nat (length qdata) < 2 ^ 32)%Z ->
  wr_err (sock (sess st)) = None ->
  rd (sock (sess st)) =
    wire_form (mkMessage "O" proposal) ++ wire_form (mkMessage "Q" qdata) ++ rest ->
  exists st' : state M,
    HandleMilterCommands ParseIP F st = Some (st', Ret tt)
    /\ closed (sock (sess st')) = true
    /\ wr (sock (sess st')) =
       wr (sock (sess st)) ++
       wire_form (mkMessage "O" (Wire.PutUint32 2 ++ Wire.PutUint32 (actions (sess st))
                                   ++ Wire.PutUint32 (protocol (sess st))))
    /\ rd (sock (sess st')) = rest
    /\ logged st' = logged st.
Proof.
  intros HlenO HlenQ Hw Hrd.
  set (answer := NewResponse "O" (Wire.PutUint32 2 ++ Wire.PutUint32 (actions (sess st))
                                    ++ Wire.PutUint32 (protocol (sess st)))).
  pose proof (ReadPacket_wire_form st (mkMessage "O" proposal) _ HlenO Hrd) as Hr1.
  assert (Hp1 : Process (mkMessage "O" proposal)
                  (unread st (wire_form (mkMessage "Q" qdata) ++ rest))
                = (unread st (wire_form (mkMessage "Q" qdata) ++ rest),
                   Ret (Some answer, None))) by reflexivity.
  assert (Hone : handle_one ParseIP F st =
                 (sent (unread st (wire_form (mkMessage "Q" qdata) ++ rest))
                       (wire_form (Response_Message answer)), Ret true)).
  { rewrite (handle_one_response _ _ _ _ _ Hr1 Hp1 Hw) by (cbn; lia). reflexivity. }
  set (st2 := sent (unread st (wire_form (mkMessage "Q" qdata) ++ rest))
                   (wire_form (Response_Message answer))) in *.
  pose proof (ReadPacket_wire_form st2 (mkMessage "Q" qdata) rest HlenQ eq_refl) as Hr2.
  assert (Hp2 : Process (mkMessage "Q" qdata) (unread st2 rest)
                = (unread st2 rest, Ret (None, Some errCloseSession))) by reflexivity.
  pose proof (handle_one_error _ _ _ _ _ _ Hr2 Hp2) as Htwo.
  rewrite decide_True in Htwo by reflexivity.
  unfold HandleMilterCommands.
  destruct (length (rd (sock (sess st)))) as [|n] eqn:En.
  { rewrite Hrd, length_app in En. unfold wire_form in En.
    rewrite length_app in En. cbn in En. lia. }
  rewrite (handle_loop_step _ _ _ _ Hone), (handle_loop_step _ _ _ _ Htwo).
  eexists. split; [reflexivity|]. cbn. repeat split.
Qed.

End SessionFacts.

(** * The properties at concrete sessions

    The sessions below are served by the recording filter. *)

Ltac by_computation := apply (bool_decide_unpack _); vm_compute; exact I.

Lemma malformed_frames_panic_witness :
  rd (sock (sess (Recorder.start [x00; x00; x00; x00]))) = [x00; x00; x00; x00] ++ []
  /\ Nat.Odd (length (decodeCStrings (Recorder.cstr "j")))
  /\ ReadPacket (Recorder.start [x00; x00; x00; x00]) =
     (unread (Recorder.start [x00; x00; x00; x00]) [], Panic (IndexOutOfRange 0 0))
  /\ (exists st', Recorder.serve (Recorder.start [x00; x00; x00; x00])
                  = Some (st', Panic (IndexOutOfRange 0 0)))
  /\ (exists st', Recorder.process (mkMessage "D" ("C"%byte :: Recorder.cstr "j"))
                    (Recorder.start [x00; x00; x00; x00])
                  = (st', Panic (IndexOutOfRange 1 1))).
Proof.
  assert (H1 : rd (sock (sess (Recorder.start [x00; x00; x00; x00])))
               = [x00; x00; x00; x00] ++ []) by reflexivity.
  assert (H2 : Nat.Odd (length (decodeCStrings (Recorder.cstr "j"))))
    by (exists 0; reflexivity).
  split; [exact H1|]. split; [exact H2|].
  exact (malformed_frames_panic Recorder.ParseIP Recorder.filter
           (Recorder.start [x00; x00; x00; x00]) [] "C"%byte (Recorder.cstr "j") H1 H2).
Defined.

Lemma read_failure_exits_process_witness :
  length (rd (sock (sess (Recorder.start [])))) < 4
  /\ ReadPacket (Recorder.start []) =
     (logging (Recorder.start []) (FatalLine "dempo2" io_EOF), Exit 1)
  /\ Recorder.serve (Recorder.start []) =
     Some (logging (Recorder.start []) (FatalLine "dempo2" io_EOF), Exit 1).
Proof.
  assert (H : length (rd (sock (sess (Recorder.start [])))) < 4) by (simpl; lia).
  split; [exact H|].
  destruct (read_failure_exits_process Recorder.ParseIP Recorder.filter
              (Recorder.start []) H) as (Hr & Hs & _).
  split; [exact Hr | exact Hs].
Defined.

Lemma frame_round_trip_witness :
  (1 + Z.of_nat (length (Data (mkMessage "L" (Recorder.cstr "To" ++ Recorder.cstr "a@b")))) < 2 ^ 32)%Z
  /\ WritePacket (mkMessage "L" (Recorder.cstr "To" ++ Recorder.cstr "a@b")) (Recorder.start [])
     = (sent (Recorder.start [])
          (wire_form (mkMessage "L" (Recorder.cstr "To" ++ Recorder.cstr "a@b"))), Ret None)
  /\ ReadPacket (Recorder.start
                   (wire_form (mkMessage "L" (Recorder.cstr "To" ++ Recorder.cstr "a@b"))
                    ++ [x00]))
     = (Recorder.start [x00],
        Ret (Some (mkMessage "L" (Recorder.cstr "To" ++ Recorder.cstr "a@b")), None)).
Proof.
  assert (H : (1 + Z.of_nat (length (Data (mkMessage "L"
                  (Recorder.cstr "To" ++ Recorder.cstr "a@b")))) < 2 ^ 32)%Z)
    by (vm_compute; reflexivity).
  split; [exact H|].
  destruct (frame_round_trip (mkMessage "L" (Recorder.cstr "To" ++ Recorder.cstr "a@b"))
              (Recorder.start [])
              (Recorder.start
                 (wire_form (mkMessage "L" (Recorder.cstr "To" ++ Recorder.cstr "a@b"))
                  ++ [x00]))
              [x00] H eq_refl eq_refl) as (Hw & _ & _ & Hr).
  split; [exact Hw | exact Hr].
Defined.

Lemma huge_payload_length :
  Z.of_nat (length Recorder.huge_payload) = 4294967295%Z.
Proof.
  unfold Recorder.huge_payload. rewrite repeat_length. apply Z2Nat.id. lia.
Qed.

(** C3 fails for a frame whose payload has [2^32 - 1] bytes: the bytes
    [WritePacket] produces for it start with the length 0, and [ReadPacket]
    on these bytes panics instead of returning the frame. *)
Lemma round_trip_fails_on_wrapped_length :
  exists (produced : list byte) (st' : state (list Recorder.call)),
    WritePacket Recorder.huge_frame (Recorder.start [])
    = (sent (Recorder.start []) produced, Ret None)
    /\ ReadPacket (Recorder.start produced) = (st', Panic (IndexOutOfRange 0 0))
    /\ ReadPacket (Recorder.start produced)
       <> (unread (Recorder.start produced) [], Ret (Some Recorder.huge_frame, None)).
Proof.
  destruct (WritePacket_wraps Recorder.huge_frame (Recorder.start [])
              (Recorder.start (([x00; x00; x00; x00] ++ [Code Recorder.huge_frame]
                                ++ Data Recorder.huge_frame) ++ []))
              [] huge_payload_length eq_refl eq_refl) as [Hw Hr].
  eexists _, _. split; [exact Hw|].
  rewrite app_nil_r in Hr. split; [exact Hr|].
  rewrite Hr. intros [= _ H].
Qed.

Lemma negotiate_echoes_own_masks_witness :
  Wire.is_uint32 (actions (sess (Recorder.start [])))
  /\ Wire.is_uint32 (protocol (sess (Recorder.start [])))
  /\ exists payload : list byte,
       Recorder.process (mkMessage "O" (Wire.PutUint32 6 ++ Wire.PutUint32 0x1ff
                                          ++ Wire.PutUint32 0x7f))
         (Recorder.start [])
       = (Recorder.start [], Ret (Some (NewResponse "O" payload), None))
       /\ length payload = 12
       /\ Wire.Uint32 payload = 2%Z
       /\ Wire.Uint32 (drop 4 payload) = 0x3f%Z
       /\ Wire.Uint32 (drop 8 payload) = 0%Z.
Proof.
  assert (Ha : Wire.is_uint32 (actions (sess (Recorder.start []))))
    by (vm_compute; split; [discriminate | reflexivity]).
  assert (Hp : Wire.is_uint32 (protocol (sess (Recorder.start []))))
    by (vm_compute; split; [discriminate | reflexivity]).
  split; [exact Ha|]. split; [exact Hp|].
  exact (negotiate_echoes_own_masks Recorder.ParseIP Recorder.filter
           (Wire.PutUint32 6 ++ Wire.PutUint32 0x1ff ++ Wire.PutUint32 0x7f)
           (Recorder.start []) Ha Hp).
Defined.

Lemma abort_clears_message_state_witness :
  ReadPacket (Recorder.run [mkMessage "D" ("C"%byte :: Recorder.cstr "j" ++ Recorder.cstr "host");
                            mkMessage "L" (Recorder.cstr "To" ++ Recorder.cstr "a@b")]
                (Recorder.start (wire_form (mkMessage "A" []) ++ wire_form (mkMessage "Q" []))))
  = (Recorder.run [mkMessage "D" ("C"%byte :: Recorder.cstr "j" ++ Recorder.cstr "host");
                   mkMessage "L" (Recorder.cstr "To" ++ Recorder.cstr "a@b")]
       (Recorder.start (wire_form (mkMessage "Q" []))),
     Ret (Some (mkMessage "A" []), None))
  /\ Code (mkMessage "A" []) = "A"%byte
  /\ (exists st2,
        headers (sess st2) = None /\ macros (sess st2) = None
        /\ handle_one Recorder.ParseIP Recorder.filter
             (Recorder.run [mkMessage "D" ("C"%byte :: Recorder.cstr "j" ++ Recorder.cstr "host");
                            mkMessage "L" (Recorder.cstr "To" ++ Recorder.cstr "a@b")]
                (Recorder.start (wire_form (mkMessage "A" []) ++ wire_form (mkMessage "Q" []))))
           = (st2, Ret true)
        /\ ReadPacket st2
           = (mkState (new_session [Recorder.HeaderCall "To" "a@b"] 0x3f 0 (Recorder.peer []))
                [],
              Ret (Some (mkMessage "Q" []), None)))
  /\ Recorder.serve
       (Recorder.run [mkMessage "D" ("C"%byte :: Recorder.cstr "j" ++ Recorder.cstr "host");
                      mkMessage "L" (Recorder.cstr "To" ++ Recorder.cstr "a@b")]
          (Recorder.start (wire_form (mkMessage "A" []) ++ wire_form (mkMessage "Q" []))))
     = Some (mkState (new_session [Recorder.HeaderCall "To" "a@b"] 0x3f 0
                        (io.Close (Recorder.peer []))) [],
             Ret tt).
Proof.
  assert (Hr : ReadPacket
      (Recorder.run [mkMessage "D" ("C"%byte :: Recorder.cstr "j" ++ Recorder.cstr "host");
                     mkMessage "L" (Recorder.cstr "To" ++ Recorder.cstr "a@b")]
         (Recorder.start (wire_form (mkMessage "A" []) ++ wire_form (mkMessage "Q" []))))
    = (Recorder.run [mkMessage "D" ("C"%byte :: Recorder.cstr "j" ++ Recorder.cstr "host");
                     mkMessage "L" (Recorder.cstr "To" ++ Recorder.cstr "a@b")]
         (Recorder.start (wire_form (mkMessage "Q" []))),
       Ret (Some (mkMessage "A" []), None))) by (vm_compute; reflexivity).
  split; [exact Hr|]. split; [reflexivity|].
  destruct (abort_clears_message_state Recorder.ParseIP Recorder.filter _ _ _ Hr eq_refl)
    as (Hall & st2 & Hp & Hh & Hm & _ & _ & Hone & _ & _ & _ & _ & _ & Hquit).
  assert (Hst2 : st2 = mkState (new_session [Recorder.HeaderCall "To" "a@b"] 0x3f 0
                                  (Recorder.peer (wire_form (mkMessage "Q" [])))) []).
  { rewrite Hall in Hp. injection Hp as <-. vm_compute. reflexivity. }
  assert (Hr2 : ReadPacket st2
                = (mkState (new_session [Recorder.HeaderCall "To" "a@b"] 0x3f 0
                              (Recorder.peer [])) [],
                   Ret (Some (mkMessage "Q" []), None)))
    by (rewrite Hst2; vm_compute; reflexivity).
  split.
  - exists st2. split; [exact Hh|]. split; [exact Hm|]. split; [exact Hone | exact Hr2].
  - exact (Hquit _ _ Hr2 eq_refl).
Defined.

Lemma short_ip_connect_is_tempfail_witness :
  (x00 ∉ list_byte_of_string "mail.example.com")
  /\ ("4"%byte = "4"%byte \/ "4"%byte = "6"%byte)
  /\ length [x00] < 2
  /\ Recorder.process
       (mkMessage "C" (list_byte_of_string "mail.example.com" ++ x00 :: "4"%byte :: [x00]))
       (Recorder.start [])
     = (Recorder.start [], Ret (Some RespTempFail, None)).
Proof.
  assert (H1 : x00 ∉ list_byte_of_string "mail.example.com") by by_computation.
  assert (H2 : "4"%byte = "4"%byte \/ "4"%byte = "6"%byte) by (left; reflexivity).
  assert (H3 : length [x00] < 2) by (simpl; lia).
  split; [exact H1|]. split; [exact H2|]. split; [exact H3|].
  exact (short_ip_connect_is_tempfail Recorder.ParseIP Recorder.filter
           (list_byte_of_string "mail.example.com") "4"%byte [x00] (Recorder.start [])
           H1 H2 H3).
Defined.

Lemma unknown_command_closes_session_witness :
  ReadPacket (Recorder.start (wire_form (mkMessage "Z" [x00])))
  = (Recorder.start [], Ret (Some (mkMessage "Z" [x00]), None))
  /\ recognized (Code (mkMessage "Z" [x00])) = false
  /\ exists st',
       Recorder.serve (Recorder.start (wire_form (mkMessage "Z" [x00]))) = Some (st', Ret tt)
       /\ closed (sock (sess st')) = true
       /\ wr (sock (sess st')) = []
       /\ logged st' = [PrintfLine "Unrecognized command code: %c" (ArgByte "Z")].
Proof.
  assert (Hr : ReadPacket (Recorder.start (wire_form (mkMessage "Z" [x00])))
               = (Recorder.start [], Ret (Some (mkMessage "Z" [x00]), None)))
    by (vm_compute; reflexivity).
  split; [exact Hr|]. split; [reflexivity|].
  exact (unknown_command_closes_session Recorder.ParseIP Recorder.filter _ _ _ Hr eq_refl).
Defined.

Lemma unknown_family_connect_witness :
  (x00 ∉ list_byte_of_string "relay")
  /\ ("X"%byte ∉ [ "U"; "L"; "4"; "6" ]%byte)
  /\ Recorder.process
       (mkMessage "C" (list_byte_of_string "relay" ++ x00 :: "X"%byte :: Recorder.cstr "abc"))
       (Recorder.start [])
     = (mkState (new_session [Recorder.ConnectCall "relay" "" 0 "abc"]
                   0x3f 0 (Recorder.peer [])) [],
        Ret (Some RespContinue, None)).
Proof.
  assert (H1 : x00 ∉ list_byte_of_string "relay") by by_computation.
  assert (H2 : "X"%byte ∉ [ "U"; "L"; "4"; "6" ]%byte) by by_computation.
  split; [exact H1|]. split; [exact H2|].
  exact (unknown_family_connect Recorder.ParseIP Recorder.filter
           (list_byte_of_string "relay") "X"%byte (Recorder.cstr "abc") (Recorder.start [])
           H1 H2).
Defined.

Lemma headers_aggregate_by_canonical_name_witness :
  decodeCStrings (Recorder.cstr "received" ++ Recorder.cstr "one") = ["received"; "one"]
  /\ decodeCStrings (Recorder.cstr "Received" ++ Recorder.cstr "two") = ["Received"; "two"]
  /\ exists h : gmap string (list string),
       Recorder.process (mkMessage "N" [])
         (Recorder.run [mkMessage "L" (Recorder.cstr "received" ++ Recorder.cstr "one");
                        mkMessage "L" (Recorder.cstr "Received" ++ Recorder.cstr "two")]
            (Recorder.start []))
       = answered
           (Recorder.run [mkMessage "L" (Recorder.cstr "received" ++ Recorder.cstr "one");
                          mkMessage "L" (Recorder.cstr "Received" ++ Recorder.cstr "two")]
              (Recorder.start []))
           (Recorder.record [Recorder.HeaderCall "received" "one";
                             Recorder.HeaderCall "Received" "two"]
                            (Recorder.HeadersCall (Some h)))
       /\ h !! "Received" = Some ["one"; "two"].
Proof.
  assert (H1 : decodeCStrings (Recorder.cstr "received" ++ Recorder.cstr "one")
               = ["received"; "one"]) by reflexivity.
  assert (H2 : decodeCStrings (Recorder.cstr "Received" ++ Recorder.cstr "two")
               = ["Received"; "two"]) by reflexivity.
  split; [exact H1|]. split; [exact H2|].
  destruct (headers_aggregate_by_canonical_name Recorder.ParseIP Recorder.filter
              (Recorder.start []) _ _ [] _ _ _ _ H1 H2) as (h & Hcall & _ & Hsame & _).
  exists h. split; [exact Hcall|]. exact (Hsame eq_refl).
Defined.

(** C6 fails on the names: the header map the Headers callback receives
    holds the values under the canonical names X-Spam and X-Flag, and
    nothing under the names as they were sent. *)
Lemma header_names_not_delivered_as_sent :
  exists h : gmap string (list string),
    milter (sess (Recorder.run
      [mkMessage "L" (Recorder.cstr "x-spam" ++ Recorder.cstr "yes");
       mkMessage "L" (Recorder.cstr "x-flag" ++ Recorder.cstr "high");
       mkMessage "N" []] (Recorder.start [])))
    = [Recorder.HeaderCall "x-spam" "yes"; Recorder.HeaderCall "x-flag" "high";
       Recorder.HeadersCall (Some h)]
    /\ h !! "x-spam" = None /\ h !! "x-flag" = None
    /\ h = {[ "X-Spam" := ["yes"]; "X-Flag" := ["high"] ]}.
Proof.
  eexists. split; [vm_compute; reflexivity|].
  split; [|split]; vm_compute; reflexivity.
Qed.

(** * The further properties at concrete sessions *)

Lemma quit_ends_session_silently_witness :
  ReadPacket (Recorder.start (wire_form (mkMessage "Q" [])))
  = (Recorder.start [], Ret (Some (mkMessage "Q" []), None))
  /\ Code (mkMessage "Q" []) = "Q"%byte
  /\ Recorder.serve (Recorder.start (wire_form (mkMessage "Q" [])))
     = Some (mkState (new_session [] 0x3f 0 (io.Close (Recorder.peer []))) [], Ret tt).
Proof.
  assert (Hr : ReadPacket (Recorder.start (wire_form (mkMessage "Q" [])))
               = (Recorder.start [], Ret (Some (mkMessage "Q" []), None)))
    by (vm_compute; reflexivity).
  split; [exact Hr|]. split; [reflexivity|].
  exact (proj1 (quit_ends_session_silently Recorder.ParseIP Recorder.filter _ _ _
                  Hr eq_refl)).
Defined.

Lemma define_macros_stores_pairs_witness :
  decodeCStrings (Recorder.cstr "j" ++ Recorder.cstr "mail.example"
                  ++ Recorder.cstr "i" ++ Recorder.cstr "4F2A")
  = flatten_pairs [("j", "mail.example"); ("i", "4F2A")]
  /\ Recorder.process
       (mkMessage "D" ("C"%byte :: Recorder.cstr "j" ++ Recorder.cstr "mail.example"
                         ++ Recorder.cstr "i" ++ Recorder.cstr "4F2A"))
       (Recorder.start [])
     = (with_macros (Recorder.start [])
          (macros_of [("j", "mail.example"); ("i", "4F2A")]),
        Ret (None, None)).
Proof.
  assert (H : decodeCStrings (Recorder.cstr "j" ++ Recorder.cstr "mail.example"
                              ++ Recorder.cstr "i" ++ Recorder.cstr "4F2A")
              = flatten_pairs [("j", "mail.example"); ("i", "4F2A")])
    by (vm_compute; reflexivity).
  split; [exact H|].
  exact (proj1 (define_macros_stores_pairs Recorder.ParseIP Recorder.filter "C"%byte
                  _ _ (Recorder.start []) H)).
Defined.

Lemma response_is_written_witness :
  ReadPacket (Recorder.start (wire_form (mkMessage "T" [])))
  = (Recorder.start [], Ret (Some (mkMessage "T" []), None))
  /\ Recorder.process (mkMessage "T" []) (Recorder.start [])
     = (Recorder.start [], Ret (Some RespContinue, None))
  /\ wr_err (sock (sess (Recorder.start (wire_form (mkMessage "T" []))))) = None
  /\ (1 + Z.of_nat (length (resp_data RespContinue)) < 2 ^ 32)%Z
  /\ handle_one Recorder.ParseIP Recorder.filter
       (Recorder.start (wire_form (mkMessage "T" [])))
     = (sent (Recorder.start []) (wire_form (Response_Message RespContinue)), Ret true).
Proof.
  assert (Hr : ReadPacket (Recorder.start (wire_form (mkMessage "T" [])))
               = (Recorder.start [], Ret (Some (mkMessage "T" []), None)))
    by (vm_compute; reflexivity).
  assert (Hp : Recorder.process (mkMessage "T" []) (Recorder.start [])
               = (Recorder.start [], Ret (Some RespContinue, None))) by reflexivity.
  assert (Hl : (1 + Z.of_nat (length (resp_data RespContinue)) < 2 ^ 32)%Z)
    by (vm_compute; reflexivity).
  split; [exact Hr|]. split; [exact Hp|]. split; [reflexivity|]. split; [exact Hl|].
  exact (proj1 (response_is_written Recorder.ParseIP Recorder.filter _ _ _ _ _
                  Hr Hp eq_refl Hl)).
Defined.

Lemma callback_error_ends_session_witness :
  ReadPacket (Recorder.start (wire_form (mkMessage "E" [])))
  = (Recorder.start [], Ret (Some (mkMessage "E" []), None))
  /\ Process Recorder.ParseIP Recorder.failing (mkMessage "E" []) (Recorder.start [])
     = (mkState (new_session [Recorder.BodyCall] 0x3f 0 (Recorder.peer [])) [],
        Ret (None, Some (OtherError "scan failed")))
  /\ exists st',
       HandleMilterCommands Recorder.ParseIP Recorder.failing
         (Recorder.start (wire_form (mkMessage "E" []))) = Some (st', Ret tt)
       /\ closed (sock (sess st')) = true
       /\ wr (sock (sess st')) = []
       /\ logged st' = [PrintfLine "Error performing milter command: %v"
                          (ArgError (OtherError "scan failed"))].
Proof.
  assert (Hr : ReadPacket (Recorder.start (wire_form (mkMessage "E" [])))
               = (Recorder.start [], Ret (Some (mkMessage "E" []), None)))
    by (vm_compute; reflexivity).
  assert (Hp : Process Recorder.ParseIP Recorder.failing (mkMessage "E" [])
                 (Recorder.start [])
               = (mkState (new_session [Recorder.BodyCall] 0x3f 0 (Recorder.peer [])) [],
                  Ret (None, Some (OtherError "scan failed")))) by reflexivity.
  split; [exact Hr|]. split; [exact Hp|].
  exact (callback_error_ends_session Recorder.ParseIP Recorder.failing _ _ _ _ _ _ Hr Hp).
Defined.

Lemma malformed_header_is_dropped_witness :
  length (decodeCStrings (Recorder.cstr "Subject")) <> 2
  /\ Recorder.process (mkMessage "L" (Recorder.cstr "Subject")) (Recorder.start [])
     = (with_headers (Recorder.start []) ∅, Ret (Some RespContinue, None)).
Proof.
  assert (H : length (decodeCStrings (Recorder.cstr "Subject")) <> 2)
    by (vm_compute; lia).
  split; [exact H|].
  exact (malformed_header_is_dropped Recorder.ParseIP Recorder.filter _
           (Recorder.start []) H).
Defined.

Lemma refused_write_exits_process_witness :
  wr_err (sock (sess Recorder.broken)) = Some (OtherError "broken pipe")
  /\ WritePacket (Response_Message RespContinue) Recorder.broken
     = (logging Recorder.broken (FatalLine "dempo5" (OtherError "broken pipe")), Exit 1).
Proof.
  split; [reflexivity|].
  exact (refused_write_exits_process (Response_Message RespContinue) Recorder.broken
           (OtherError "broken pipe") eq_refl).
Defined.

Lemma truncated_payload_exits_process_witness :
  Wire.is_uint32 5
  /\ rd (sock (sess (Recorder.start (Wire.PutUint32 5 ++ ["L"; "a"]%byte))))
     = Wire.PutUint32 5 ++ ["L"; "a"]%byte
  /\ length ["L"; "a"]%byte < Z.to_nat 5
  /\ ReadPacket (Recorder.start (Wire.PutUint32 5 ++ ["L"; "a"]%byte))
     = (logging (Recorder.start []) (FatalLine "dempo" io_ErrUnexpectedEOF), Exit 1).
Proof.
  assert (H1 : Wire.is_uint32 5) by (unfold Wire.is_uint32; lia).
  assert (H3 : length ["L"; "a"]%byte < Z.to_nat 5) by (simpl; lia).
  split; [exact H1|]. split; [reflexivity|]. split; [exact H3|].
  exact (truncated_payload_exits_process
           (Recorder.start (Wire.PutUint32 5 ++ ["L"; "a"]%byte)) 5 ["L"; "a"]%byte
           H1 eq_refl H3).
Defined.

Lemma loop_turn_consumes_one_frame_witness :
  handle_one Recorder.ParseIP Recorder.filter
    (Recorder.start (wire_form (mkMessage "T" [x00; x00]) ++ [x00]))
  = (sent (Recorder.start [x00]) (wire_form (Response_Message RespContinue)), Ret true)
  /\ exists msg,
       snd (ReadPacket (Recorder.start (wire_form (mkMessage "T" [x00; x00]) ++ [x00])))
       = Ret (Some msg, None)
       /\ length (wire_form (mkMessage "T" [x00; x00]) ++ [x00])
          = 4 + 1 + length (Data msg) + 1.
Proof.
  assert (H : handle_one Recorder.ParseIP Recorder.filter
                (Recorder.start (wire_form (mkMessage "T" [x00; x00]) ++ [x00]))
              = (sent (Recorder.start [x00]) (wire_form (Response_Message RespContinue)),
                 Ret true)) by (vm_compute; reflexivity).
  split; [exact H|].
  destruct (loop_turn_consumes_one_frame Recorder.ParseIP Recorder.filter _ _ H)
    as (msg & _ & Hm & Hlen).
  exists msg. split; [exact Hm | exact Hlen].
Defined.

Lemma ip_connect_decodes_port_witness :
  (x00 ∉ list_byte_of_string "mail.example.com")
  /\ ("4"%byte = "4"%byte \/ "4"%byte = "6"%byte)
  /\ Recorder.process
       (mkMessage "C" (list_byte_of_string "mail.example.com"
                       ++ x00 :: "4"%byte :: x00 :: "025"%byte :: Recorder.cstr "192.0.2.1"))
       (Recorder.start [])
     = (mkState (new_session
                   [Recorder.ConnectCall "mail.example.com" "tcp4" 25 "192.0.2.1"]
                   0x3f 0 (Recorder.peer [])) [],
        Ret (Some RespContinue, None)).
Proof.
  assert (H1 : x00 ∉ list_byte_of_string "mail.example.com") by by_computation.
  assert (H2 : "4"%byte = "4"%byte \/ "4"%byte = "6"%byte) by (left; reflexivity).
  split; [exact H1|]. split; [exact H2|].
  exact (ip_connect_decodes_port Recorder.ParseIP Recorder.filter
           (list_byte_of_string "mail.example.com") "4"%byte x00 "025"%byte
           (Recorder.cstr "192.0.2.1") (Recorder.start []) H1 H2).
Defined.

Lemma local_family_connect_witness :
  (x00 ∉ list_byte_of_string "localhost")
  /\ ("L"%byte = "U"%byte \/ "L"%byte = "L"%byte)
  /\ Recorder.process
       (mkMessage "C" (list_byte_of_string "localhost"
                       ++ x00 :: "L"%byte :: Recorder.cstr "/run/mta.sock"))
       (Recorder.start [])
     = (mkState (new_session
                   [Recorder.ConnectCall "localhost" "unix" 0 "/run/mta.sock"]
                   0x3f 0 (Recorder.peer [])) [],
        Ret (Some RespContinue, None)).
Proof.
  assert (H1 : x00 ∉ list_byte_of_string "localhost") by by_computation.
  assert (H2 : "L"%byte = "U"%byte \/ "L"%byte = "L"%byte) by (right; reflexivity).
  split; [exact H1|]. split; [exact H2|].
  exact (local_family_connect Recorder.ParseIP Recorder.filter
           (list_byte_of_string "localhost") "L"%byte (Recorder.cstr "/run/mta.sock")
           (Recorder.start []) H1 H2).
Defined.

Lemma envelope_address_is_unbracketed_witness :
  no_brackets "user@example.com" = true
  /\ (x00 ∉ list_byte_of_string "<user@example.com>")
  /\ Recorder.process
       (mkMessage "M" (list_byte_of_string "<user@example.com>" ++ x00 :: []))
       (Recorder.start [])
     = (mkState (new_session [Recorder.MailFromCall "user@example.com"]
                   0x3f 0 (Recorder.peer [])) [],
        Ret (Some RespContinue, None)).
Proof.
  assert (H1 : no_brackets "user@example.com" = true) by reflexivity.
  assert (H2 : x00 ∉ list_byte_of_string "<user@example.com>") by by_computation.
  split; [exact H1|]. split; [exact H2|].
  exact (proj1 (envelope_address_is_unbracketed Recorder.ParseIP Recorder.filter
                  "user@example.com" [] (Recorder.start []) H1 H2)).
Defined.

Lemma truncated_commands_panic_witness :
  (x00 ∉ list_byte_of_string "mail")
  /\ Recorder.process (mkMessage "C" (list_byte_of_string "mail" ++ [x00]))
       (Recorder.start [])
     = (Recorder.start [], Panic (IndexOutOfRange 0 0)).
Proof.
  assert (H : x00 ∉ list_byte_of_string "mail") by by_computation.
  split; [exact H|].
  exact (proj1 (proj2 (truncated_commands_panic Recorder.ParseIP Recorder.filter
                         (list_byte_of_string "mail") (Recorder.start []) H))).
Defined.

Lemma frames_read_back_in_order_witness :
  (1 + Z.of_nat (length (Data (mkMessage "L" (Recorder.cstr "To" ++ Recorder.cstr "a@b"))))
   < 2 ^ 32)%Z
  /\ (1 + Z.of_nat (length (Data (mkMessage "N" []))) < 2 ^ 32)%Z
  /\ ReadPacket (fst (ReadPacket (Recorder.start
       (wire_form (mkMessage "L" (Recorder.cstr "To" ++ Recorder.cstr "a@b"))
        ++ wire_form (mkMessage "N" []) ++ []))))
     = (Recorder.start [], Ret (Some (mkMessage "N" []), None)).
Proof.
  assert (H1 : (1 + Z.of_nat (length (Data (mkMessage "L"
                  (Recorder.cstr "To" ++ Recorder.cstr "a@b")))) < 2 ^ 32)%Z)
    by (vm_compute; reflexivity).
  assert (H2 : (1 + Z.of_nat (length (Data (mkMessage "N" []))) < 2 ^ 32)%Z)
    by (vm_compute; reflexivity).
  split; [exact H1|]. split; [exact H2|].
  exact (proj2 (proj2 (frames_read_back_in_order
           (mkMessage "L" (Recorder.cstr "To" ++ Recorder.cstr "a@b")) (mkMessage "N" [])
           (Recorder.start [])
           (Recorder.start
              (wire_form (mkMessage "L" (Recorder.cstr "To" ++ Recorder.cstr "a@b"))
               ++ wire_form (mkMessage "N" []) ++ []))
           [] H1 H2 eq_refl eq_refl))).
Defined.

Lemma negotiate_then_quit_witness :
  (1 + Z.of_nat (length (Wire.PutUint32 6 ++ Wire.PutUint32 0x1ff ++ Wire.PutUint32 0x7f))
   < 2 ^ 32)%Z
  /\ (1 + Z.of_nat (length (@nil byte)) < 2 ^ 32)%Z
  /\ exists st',
       Recorder.serve (Recorder.start
         (wire_form (mkMessage "O" (Wire.PutUint32 6 ++ Wire.PutUint32 0x1ff
                                      ++ Wire.PutUint32 0x7f))
          ++ wire_form (mkMessage "Q" []) ++ []))
       = Some (st', Ret tt)
       /\ closed (sock (sess st')) = true
       /\ wr (sock (sess st')) =
          wire_form (mkMessage "O" (Wire.PutUint32 2 ++ Wire.PutUint32 0x3f
                                      ++ Wire.PutUint32 0))
       /\ rd (sock (sess st')) = []
       /\ logged st' = [].
Proof.
  assert (H1 : (1 + Z.of_nat (length (Wire.PutUint32 6 ++ Wire.PutUint32 0x1ff
                                        ++ Wire.PutUint32 0x7f)) < 2 ^ 32)%Z)
    by (vm_compute; reflexivity).
  assert (H2 : (1 + Z.of_nat (length (@nil byte)) < 2 ^ 32)%Z) by (vm_compute; reflexivity).
  split; [exact H1|]. split; [exact H2|].
  exact (negotiate_then_quit Recorder.ParseIP Recorder.filter
           (Recorder.start
              (wire_form (mkMessage "O" (Wire.PutUint32 6 ++ Wire.PutUint32 0x1ff
                                           ++ Wire.PutUint32 0x7f))
               ++ wire_form (mkMessage "Q" []) ++ []))
           _ [] [] H1 H2 eq_refl eq_refl).
Defined.

Lemma loop_never_logs_transport_errors_witness :
  Recorder.serve (Recorder.start (wire_form (mkMessage "Z" [x00])))
  = Some (mkState (new_session [] 0x3f 0 (io.Close (Recorder.peer [])))
            [PrintfLine "Unrecognized command code: %c" (ArgByte "Z")],
          Ret tt)
  /\ exists new : list log_line,
       [PrintfLine "Unrecognized command code: %c" (ArgByte "Z")]
       = logged (Recorder.start (wire_form (mkMessage "Z" [x00]))) ++ new
       /\ Forall loop_line new.
Proof.
  assert (H : Recorder.serve (Recorder.start (wire_form (mkMessage "Z" [x00])))
              = Some (mkState (new_session [] 0x3f 0 (io.Close (Recorder.peer [])))
                        [PrintfLine "Unrecognized command code: %c" (ArgByte "Z")],
                      Ret tt)) by (vm_compute; reflexivity).
  split; [exact H|].
  exact (proj1 (loop_never_logs_transport_errors Recorder.ParseIP Recorder.filter
                  _ _ _ H)).
Defined.

Lemma transport_closed_unless_exit_witness :
  Recorder.serve (Recorder.start [])
  = Some (logging (Recorder.start []) (FatalLine "dempo2" io_EOF), Exit 1)
  /\ closed (sock (sess (logging (Recorder.start []) (FatalLine "dempo2" io_EOF))))
     = closed (sock (sess (Recorder.start []))).
Proof.
  assert (H : Recorder.serve (Recorder.start [])
              = Some (logging (Recorder.start []) (FatalLine "dempo2" io_EOF), Exit 1))
    by (vm_compute; reflexivity).
  split; [exact H|].
  exact (proj1 (transport_closed_unless_exit Recorder.ParseIP Recorder.filter _ _ _ H)).
Defined.
